(** * oksvg: the path model, the icon parser loop and the raster driver

    A shallow embedding of [svgicon/path.go], [svgicon/svgicon.go] and of the
    [svgraster] backend, followed by the properties of these functions.

    Conventions.
    - [fixed.Int26_6] is an [int32]; it is a [Z] here, and every function that
      depends on the width says so.
    - A Go [float32] or [float64] value is the rational it denotes ([Q]).
      The only floating-point arithmetic of these files is the conversion of
      an [int32], a division by 64 and one subtraction of two such quotients.
      [float32_of_int32] writes the one step that rounds out; a division by
      64 only changes the exponent, and [extent_is_exact] shows that the
      [float64] operations of [svgraster] do not round.
    - A slice is a [list], a [map[string]T] is a [gmap string T], a pointer
      that may be [nil] is an [option].
    - A function that can panic returns an [exec]. *)

From Stdlib Require Import ZArith QArith Qabs Qround List Ascii DecimalString.
From stdpp Require Import base option list strings gmap.

Local Open Scope Z_scope.

(** ** Panics *)

Inductive exec (A : Type) : Type :=
| Normal (a : A)
| Panic.
Arguments Normal {A} a.
Arguments Panic {A}.

#[global] Instance exec_ret : MRet exec := fun A a => Normal a.

#[global] Instance exec_bind : MBind exec := fun A B k m =>
  match m with
  | Normal a => k a
  | Panic => Panic
  end.

(** ** golang.org/x/image/math/fixed *)

Module fixed.

Definition Int26_6 := Z.

Record Point26_6 : Type := { X : Int26_6; Y : Int26_6 }.

Record Rectangle26_6 : Type := { Min : Point26_6; Max : Point26_6 }.

Definition int32_range (x : Z) : Prop := - 2 ^ 31 <= x < 2 ^ 31.

End fixed.

(** ** fmt and strconv, as far as [Path.ToSVGPath] uses them *)

Module fmt.

(** [float32(x)] for an [int32] [x]: round to nearest, ties to even, on a
    24-bit significand. Below [2^24] the conversion is exact. *)
Definition float32_of_int32 (x : Z) : Q :=
  let a := Z.abs x in
  if a <? 2 ^ 24 then inject_Z x
  else
    let k := Z.log2 a - 23 in
    let q := a / 2 ^ k in
    let r := a mod 2 ^ k in
    let half := 2 ^ (k - 1) in
    let q' := if r <? half then q
              else if half <? r then q + 1
              else if Z.even q then q else q + 1 in
    inject_Z (Z.sgn x * (q' * 2 ^ k)).

(** The integer nearest to a non-negative rational, ties to even: the
    rounding of [strconv]'s exact decimal conversion. *)
Definition round_half_even (v : Q) : Z :=
  let n := Qnum v in
  let d := Z.pos (Qden v) in
  let k := n / d in
  let r := n mod d in
  if 2 * r <? d then k
  else if d <? 2 * r then k + 1
  else if Z.even k then k else k + 1.

Definition digits (n : Z) : string :=
  NilZero.string_of_uint (N.to_uint (Z.to_N n)).

Fixpoint spaces (n : nat) : string :=
  match n with
  | O => EmptyString
  | S n' => String " " (spaces n')
  end.

(** Padding on the left up to the width of the verb. *)
Definition pad (width : nat) (s : string) : string :=
  spaces (width - String.length s) +:+ s.

(** The verb [%4.3f]: sign, integer part, a dot and three digits. *)
Definition verb_4_3f (v : Q) : string :=
  let m := round_half_even (Qabs v * 1000) in
  let frac := m mod 1000 in
  pad 4
    ((if Qnum v <? 0 then "-" else "") +:+
     digits (m / 1000) +:+ "." +:+
     digits (frac / 100) +:+ digits (frac / 10 mod 10) +:+ digits (frac mod 10)).

(** [Sprintf] for the formats of this file: a literal prefix, then one
    [%4.3f] per argument, separated by commas. *)
Definition Sprintf (prefix : string) (args : list Q) : string :=
  prefix +:+ String.concat "," (map verb_4_3f args).

End fmt.

(** ** encoding/xml and io, as far as [ReadIconStream] uses them *)

Module xml.

Record Name : Type := { Space : string; Local : string }.

Record Attr : Type := { AttrName : Name; Value : string }.

(** The token types of [encoding/xml]. *)
Inductive Token : Type :=
| StartElement (name : Name) (attr : list Attr)
| EndElement (name : Name)
| CharData (data : string)
| Comment (data : string)
| ProcInst (target inst : string)
| Directive (data : string).

End xml.

Module io.

(** A Go [error] that is not [nil]: [io.EOF] or any other error value. *)
Inductive error : Type :=
| EOF
| errorString (msg : string).

#[global] Instance error_eq_dec : EqDecision error.
Proof. solve_decision. Defined.

(** What [decoder.Token()] returns: a token, or an error. *)
Definition TokenResult : Type := xml.Token + error.

(** A reader is modelled by the results [xml.NewDecoder(stream).Token()]
    will return from it, in order; once they are exhausted [Token] returns
    [io.EOF]. *)
Definition Reader : Type := list TokenResult.

End io.

Module os.

(** [os.Open]: the files that can be opened, each with the tokens its
    content decodes to, and the error for the others. *)
Definition FileSystem : Type := string -> io.Reader + io.error.

End os.

(** ** svgicon/path.go *)

Module svgicon.

Import fixed.

(** The five operations; [Path] is a slice of them. *)
Inductive Operation : Type :=
| OpMoveTo (p : Point26_6)
| OpLineTo (p : Point26_6)
| OpQuadTo (p0 p1 : Point26_6)
| OpCubicTo (p0 p1 p2 : Point26_6)
| OpClose.

Definition Path := list Operation.

(** [float32(c)/64] *)
Definition coord (c : Int26_6) : Q := (fmt.float32_of_int32 c / 64)%Q.

(** The body of the loop of [ToSVGPath]: the chunk of one operation. *)
Definition chunk (op : Operation) : string :=
  match op with
  | OpMoveTo p => fmt.Sprintf "M" [coord (X p); coord (Y p)]
  | OpLineTo p => fmt.Sprintf "L" [coord (X p); coord (Y p)]
  | OpQuadTo p0 p1 =>
      fmt.Sprintf "Q" [coord (X p0); coord (Y p0); coord (X p1); coord (Y p1)]
  | OpCubicTo p0 p1 p2 =>
      "C" +:+ fmt.Sprintf "C" [coord (X p0); coord (Y p0); coord (X p1); coord (Y p1);
                               coord (X p2); coord (Y p2)]
  | OpClose => "Z"
  end.

Definition ToSVGPath (p : Path) : string :=
  String.concat " " (map chunk p).

Definition String_ (p : Path) : string := ToSVGPath p.

(** *** The characters of a text *)

Fixpoint allChars (f : ascii -> bool) (s : string) : bool :=
  match s with
  | EmptyString => true
  | String a s => f a && allChars f s
  end.

(** One of the ten decimal digits. *)
Definition isDigit (a : ascii) : bool :=
  (48 <=? nat_of_ascii a)%nat && (nat_of_ascii a <=? 57)%nat.

Definition isSpace (a : ascii) : bool := Ascii.eqb a " ".

(** The decimal numeral of [m] thousandths, with the sign of [c]: the
    integer part, a point and three digits. *)
Definition thousandths (c m : Z) : string :=
  (if c <? 0 then "-" else "") +:+ fmt.digits (m / 1000) +:+ "." +:+
  fmt.digits (m mod 1000 / 100) +:+ fmt.digits (m mod 1000 / 10 mod 10) +:+
  fmt.digits (m mod 1000 mod 10).

(** *** The methods of [*Path] *)

Definition Path_Clear (p : Path) : Path := take 0 p.

Definition Path_Start (a : Point26_6) (p : Path) : Path :=
  p ++ [OpMoveTo {| X := X a; Y := Y a |}].

Definition Path_Line (b : Point26_6) (p : Path) : Path :=
  p ++ [OpLineTo {| X := X b; Y := Y b |}].

Definition Path_QuadBezier (b c : Point26_6) (p : Path) : Path :=
  p ++ [OpQuadTo b c].

Definition Path_CubeBezier (b c d : Point26_6) (p : Path) : Path :=
  p ++ [OpCubicTo b c d].

Definition Path_Stop (closeLoop : bool) (p : Path) : Path :=
  if closeLoop then p ++ [OpClose] else p.

(** [p'] is [p] with the one operation [op] added at its end: the
    operations of [p] are where they were. *)
Definition appends (p : Path) (op : Operation) (p' : Path) : Prop :=
  length p' = S (length p) /\
  p' !! length p = Some op /\
  forall i : nat, (i < length p)%nat -> p' !! i = p !! i.

(** *** The interface [Drawer]

    Its declaration is in a file of the package that is not among the
    sources; these are the five methods [drawTo] calls. A drawer is a
    stateful object: a method maps the state before the call to the state
    after it. *)
Class Drawer (D : Type) : Type := {
  Start : Point26_6 -> D -> D;
  Line : Point26_6 -> D -> D;
  QuadBezier : Point26_6 -> Point26_6 -> D -> D;
  CubeBezier : Point26_6 -> Point26_6 -> Point26_6 -> D -> D;
  Stop : bool -> D -> D
}.

(** [*Path] has these methods, so it is a drawer. *)
#[global] Instance Path_Drawer : Drawer Path := {|
  Start := Path_Start;
  Line := Path_Line;
  QuadBezier := Path_QuadBezier;
  CubeBezier := Path_CubeBezier;
  Stop := Path_Stop
|}.

(** A drawer that does nothing but record the calls it receives, in order. *)
Inductive DrawerCall : Type :=
| CallStart (a : Point26_6)
| CallLine (b : Point26_6)
| CallQuadBezier (b c : Point26_6)
| CallCubeBezier (b c d : Point26_6)
| CallStop (closeLoop : bool).

#[global] Instance Recorder : Drawer (list DrawerCall) := {|
  Start a log := log ++ [CallStart a];
  Line b log := log ++ [CallLine b];
  QuadBezier b c log := log ++ [CallQuadBezier b c];
  CubeBezier b c d log := log ++ [CallCubeBezier b c d];
  Stop closeLoop log := log ++ [CallStop closeLoop]
|}.

(** *** [Matrix2D]

    [svgraster] converts a [svgicon.Matrix2D] to a [rasterx.Matrix2D], so
    the two have the same six [float64] fields. *)
Record Matrix2D : Type := { A : Q; B : Q; C : Q; D : Q; E : Q; F : Q }.

(** Modelled from the spec: the variable [Identity] is declared in a file
    that is not among the sources; the matrix [[a b c d e f]] maps [(x,y)]
    to [(a*x+c*y+e, b*x+d*y+f)], and the identity is the default at the
    document root. *)
Definition Identity : Matrix2D :=
  {| A := 1; B := 0; C := 0; D := 1; E := 0; F := 0 |}.

(** The methods of [Matrix2D] that [drawTo] calls; their bodies are in a
    file that is not among the sources. *)
Class Transforms : Type := {
  trMove : Matrix2D -> Point26_6 -> Point26_6;
  trLine : Matrix2D -> Point26_6 -> Point26_6;
  trQuad : Matrix2D -> Point26_6 -> Point26_6 -> Point26_6 * Point26_6;
  trCubic : Matrix2D -> Point26_6 -> Point26_6 -> Point26_6 ->
            Point26_6 * Point26_6 * Point26_6
}.

(** [op.drawTo(d, M)], one case per receiver type. *)
Definition drawTo `{Transforms} {D : Type} `{Drawer D}
    (op : Operation) (d : D) (M : Matrix2D) : D :=
  match op with
  | OpMoveTo p =>
      let d := Stop false d in
      Start (trMove M p) d
  | OpLineTo p => Line (trLine M p) d
  | OpQuadTo p0 p1 =>
      let '(b, c) := trQuad M p0 p1 in
      QuadBezier b c d
  | OpCubicTo p0 p1 p2 =>
      let '(b, c, d_) := trCubic M p0 p1 p2 in
      CubeBezier b c d_ d
  | OpClose => Stop true d
  end.

(** ** svgicon/svgicon.go *)

(** Modelled from the spec: the type [ErrorMode] and its constants are
    declared in a file that is not among the sources (only
    [WarnErrorMode] is named in them); the mode is one of Ignore, Fail
    (strict) and Warn. *)
Inductive ErrorMode : Type :=
| IgnoreErrorMode
| StrictErrorMode
| WarnErrorMode.

(** The entries of a definition group. The declaration is not among the
    sources; [ReadIconStream] uses the fields [ID] and [Tag], and an entry
    carries the attributes of the element it was captured from. *)
Record definition : Type := {
  ID : string;
  Tag : string;
  Attrs : list xml.Attr
}.

Module Bounds.
Record t : Type := { X : Q; Y : Q; W : Q; H : Q }.
End Bounds.

(** Modelled from the spec: the constants of [GradientUnits] and
    [SpreadMethod] are declared in a file that is not among the sources
    (only [ObjectBoundingBox] is named in them); the coordinate-space mode
    is bounding-box-relative or user-space, the spread mode is pad,
    reflect or repeat. *)
Inductive GradientUnits : Type :=
| ObjectBoundingBox
| UserSpaceOnUse.

Inductive SpreadMethod : Type :=
| PadSpread
| ReflectSpread
| RepeatSpread.

(** The two types of a gradient's [Direction], as [toRasterxGradient]
    indexes them: [Linear] is a [[4]float64], [Radial] a [[6]float64]. *)
Inductive Direction_ : Type :=
| Linear (x1 y1 x2 y2 : Q)
| Radial (cx cy fx fy r fr : Q).

(** [svgraster] converts a [svgicon.GradStop] to a [rasterx.GradStop], so
    the two have the same fields. [Color] stands for a [color.Color]. *)
Record GradStop (Color : Type) : Type := {
  StopColor : Color;
  Offset : Q;
  Opacity : Q
}.
Arguments StopColor {Color} _.
Arguments Offset {Color} _.
Arguments Opacity {Color} _.

(** The fields of [Gradient] that [svgraster] reads; the declaration is
    not among the sources. *)
Record Gradient (Color : Type) : Type := {
  Direction : Direction_;
  Stops : list (GradStop Color);
  Bounds : Bounds.t;
  Matrix : Matrix2D;
  Spread : SpreadMethod;
  Units : GradientUnits
}.
Arguments Direction {Color} _.
Arguments Stops {Color} _.
Arguments Bounds {Color} _.
Arguments Matrix {Color} _.
Arguments Spread {Color} _.
Arguments Units {Color} _.

(** A paint: the two dynamic types [setColorFromPattern] switches on. *)
Inductive Pattern (Color : Type) : Type :=
| PlainColor (c : Color)
| GradientPattern (g : Gradient Color).
Arguments PlainColor {Color} c.
Arguments GradientPattern {Color} g.

(** Types and values of the package whose declarations are not among the
    sources and whose content [ReadIconStream] does not inspect. *)
Class Declarations : Type := {
  Color : Type;
  PathStyle : Type;
  DefaultStyle : PathStyle
}.

Section Cursor.

Context `{Declarations}.

(** The fields of [SvgIcon] that [ReadIconStream] uses. *)
Record SvgIcon : Type := {
  defs : gmap string (list definition);
  grads : gmap string (Gradient Color);
  Transform : Matrix2D;
  Titles : list string;
  Descriptions : list string
}.

(** The fields of [iconCursor] that [ReadIconStream] uses. The field
    [icon] is a pointer to the very document [ReadIconStream] returns:
    the document is kept here, and nowhere else. *)
Record iconCursor : Type := {
  styleStack : list PathStyle;
  icon : SvgIcon;
  errorMode : ErrorMode;
  inDefs : bool;
  currentDef : list definition;
  inTitleText : bool;
  inDescText : bool;
  inGrad : bool
}.

Definition set_styleStack (v : list PathStyle) (c : iconCursor) : iconCursor :=
  {| styleStack := v; icon := icon c; errorMode := errorMode c;
     inDefs := inDefs c; currentDef := currentDef c;
     inTitleText := inTitleText c; inDescText := inDescText c;
     inGrad := inGrad c |}.

Definition set_icon (v : SvgIcon) (c : iconCursor) : iconCursor :=
  {| styleStack := styleStack c; icon := v; errorMode := errorMode c;
     inDefs := inDefs c; currentDef := currentDef c;
     inTitleText := inTitleText c; inDescText := inDescText c;
     inGrad := inGrad c |}.

Definition set_errorMode (v : ErrorMode) (c : iconCursor) : iconCursor :=
  {| styleStack := styleStack c; icon := icon c; errorMode := v;
     inDefs := inDefs c; currentDef := currentDef c;
     inTitleText := inTitleText c; inDescText := inDescText c;
     inGrad := inGrad c |}.

Definition set_inDefs (v : bool) (c : iconCursor) : iconCursor :=
  {| styleStack := styleStack c; icon := icon c; errorMode := errorMode c;
     inDefs := v; currentDef := currentDef c;
     inTitleText := inTitleText c; inDescText := inDescText c;
     inGrad := inGrad c |}.

Definition set_currentDef (v : list definition) (c : iconCursor) : iconCursor :=
  {| styleStack := styleStack c; icon := icon c; errorMode := errorMode c;
     inDefs := inDefs c; currentDef := v;
     inTitleText := inTitleText c; inDescText := inDescText c;
     inGrad := inGrad c |}.

Definition set_inTitleText (v : bool) (c : iconCursor) : iconCursor :=
  {| styleStack := styleStack c; icon := icon c; errorMode := errorMode c;
     inDefs := inDefs c; currentDef := currentDef c;
     inTitleText := v; inDescText := inDescText c;
     inGrad := inGrad c |}.

Definition set_inDescText (v : bool) (c : iconCursor) : iconCursor :=
  {| styleStack := styleStack c; icon := icon c; errorMode := errorMode c;
     inDefs := inDefs c; currentDef := currentDef c;
     inTitleText := inTitleText c; inDescText := v;
     inGrad := inGrad c |}.

Definition set_inGrad (v : bool) (c : iconCursor) : iconCursor :=
  {| styleStack := styleStack c; icon := icon c; errorMode := errorMode c;
     inDefs := inDefs c; currentDef := currentDef c;
     inTitleText := inTitleText c; inDescText := inDescText c;
     inGrad := v |}.

Definition set_defs (v : gmap string (list definition)) (i : SvgIcon) : SvgIcon :=
  {| defs := v; grads := grads i; Transform := Transform i;
     Titles := Titles i; Descriptions := Descriptions i |}.

Definition set_Titles (v : list string) (i : SvgIcon) : SvgIcon :=
  {| defs := defs i; grads := grads i; Transform := Transform i;
     Titles := v; Descriptions := Descriptions i |}.

Definition set_Descriptions (v : list string) (i : SvgIcon) : SvgIcon :=
  {| defs := defs i; grads := grads i; Transform := Transform i;
     Titles := Titles i; Descriptions := v |}.

(** The two methods of [*iconCursor] that [ReadIconStream] calls; their
    bodies are in a file that is not among the sources. A method may
    change the cursor and the document behind it, returns an error or
    [nil], and may panic. *)
Class CursorMethods : Type := {
  pushStyle : iconCursor -> list xml.Attr -> exec (iconCursor * option io.error);
  readStartElement :
    iconCursor -> xml.Name -> list xml.Attr -> exec (iconCursor * option io.error)
}.

Context `{CursorMethods}.

(** [s[:len(s)-1]]; the slice expression panics on an empty slice. *)
Definition pop (s : list PathStyle) : exec (list PathStyle) :=
  match length s with
  | O => Panic
  | S n => Normal (take n s)
  end.

(** [l[len(l)-1] += data]; the index expression panics on an empty
    slice. *)
Definition appendToLast (l : list string) (data : string) : exec (list string) :=
  match length l with
  | O => Panic
  | S i =>
      match l !! i with
      | Some s => Normal (<[i := s +:+ data]> l)
      | None => Panic
      end
  end.

(** The [switch se.Name.Local] of the [xml.EndElement] case. *)
Definition endElement (cursor : iconCursor) (local : string) : iconCursor :=
  if String.eqb local "g" then
    if inDefs cursor
    then set_currentDef
           (currentDef cursor ++ [{| ID := ""; Tag := "endg"; Attrs := [] |}]) cursor
    else cursor
  else if String.eqb local "title" then set_inTitleText false cursor
  else if String.eqb local "desc" then set_inDescText false cursor
  else if String.eqb local "defs" then
    let cursor :=
      match currentDef cursor with
      | first :: _ =>
          let cursor :=
            set_icon (set_defs (<[ID first := currentDef cursor]> (defs (icon cursor)))
                               (icon cursor)) cursor in
          set_currentDef [] cursor
      | [] => cursor
      end in
    set_inDefs false cursor
  else if String.eqb local "radialGradient" || String.eqb local "linearGradient"
  then set_inGrad false cursor
  else cursor.

(** The [xml.CharData] case. *)
Definition charData (cursor : iconCursor) (data : string) : exec iconCursor :=
  cursor ←
    (if inTitleText cursor then
       titles ← appendToLast (Titles (icon cursor)) data;
       Normal (set_icon (set_Titles titles (icon cursor)) cursor)
     else Normal cursor);
  if inDescText cursor then
    descriptions ← appendToLast (Descriptions (icon cursor)) data;
    Normal (set_icon (set_Descriptions descriptions (icon cursor)) cursor)
  else Normal cursor.

(** The [switch se := t.(type)] of the loop body: the cursor after the
    token, and the error the loop returns with, if any. *)
Definition token (cursor : iconCursor) (t : xml.Token)
    : exec (iconCursor * option io.error) :=
  match t with
  | xml.StartElement name attr =>
      '(cursor, err) ← pushStyle cursor attr;
      match err with
      | Some err => Normal (cursor, Some err)
      | None => readStartElement cursor name attr
      end
  | xml.EndElement name =>
      s ← pop (styleStack cursor);
      let cursor := set_styleStack s cursor in
      Normal (endElement cursor (xml.Local name), None)
  | xml.CharData data =>
      cursor ← charData cursor data;
      Normal (cursor, None)
  | _ => Normal (cursor, None)
  end.

(** The [for] loop of [ReadIconStream]: the cursor when the loop is
    left, and the error returned ([None] for [nil]). *)
Fixpoint loop (cursor : iconCursor) (decoder : io.Reader)
    : exec (iconCursor * option io.error) :=
  match decoder with
  | [] => Normal (cursor, None)
  | inr err :: _ =>
      if decide (err = io.EOF) then Normal (cursor, None)
      else Normal (cursor, Some err)
  | inl t :: decoder =>
      '(cursor, err) ← token cursor t;
      match err with
      | Some err => Normal (cursor, Some err)
      | None => loop cursor decoder
      end
  end.

(** The cursor [ReadIconStream] starts from. *)
Definition newCursor (errMode : ErrorMode) : iconCursor :=
  let icon := {| defs := ∅; grads := ∅; Transform := Identity;
                 Titles := []; Descriptions := [] |} in
  let cursor := {| styleStack := [DefaultStyle]; icon := icon;
                   errorMode := IgnoreErrorMode; inDefs := false;
                   currentDef := []; inTitleText := false;
                   inDescText := false; inGrad := false |} in
  set_errorMode errMode cursor.

(** [ReadIconStream]: the pointer returned ([None] for [nil]) with the
    document it points to, and the error. *)
Definition ReadIconStream (stream : io.Reader) (errMode : ErrorMode)
    : exec (option SvgIcon * option io.error) :=
  '(cursor, err) ← loop (newCursor errMode) stream;
  Normal (Some (icon cursor), err).

(** [ReadIcon]; closing the file has no effect on what is returned. *)
Definition ReadIcon (fs : os.FileSystem) (iconFile : string) (errMode : ErrorMode)
    : exec (option SvgIcon * option io.error) :=
  match fs iconFile with
  | inr errf => Normal (None, Some errf)
  | inl fin => ReadIconStream fin errMode
  end.

(** *** The loop as a relation

    One rule per way through the loop body: [Loop cursor decoder r]
    holds when [ReadIconStream], entering the loop with [cursor] and
    the tokens [decoder] still to come, ends with [r]. *)
Inductive Loop : iconCursor -> io.Reader ->
                 exec (option SvgIcon * option io.error) -> Prop :=
| Loop_exhausted cursor :
    Loop cursor [] (Normal (Some (icon cursor), None))
| Loop_EOF cursor rest :
    Loop cursor (inr io.EOF :: rest) (Normal (Some (icon cursor), None))
| Loop_error cursor err rest :
    err <> io.EOF ->
    Loop cursor (inr err :: rest) (Normal (Some (icon cursor), Some err))
| Loop_pushStyle_panic cursor name attr rest :
    pushStyle cursor attr = Panic ->
    Loop cursor (inl (xml.StartElement name attr) :: rest) Panic
| Loop_pushStyle_error cursor name attr rest cursor1 err :
    pushStyle cursor attr = Normal (cursor1, Some err) ->
    Loop cursor (inl (xml.StartElement name attr) :: rest)
         (Normal (Some (icon cursor1), Some err))
| Loop_readStartElement_panic cursor name attr rest cursor1 :
    pushStyle cursor attr = Normal (cursor1, None) ->
    readStartElement cursor1 name attr = Panic ->
    Loop cursor (inl (xml.StartElement name attr) :: rest) Panic
| Loop_readStartElement_error cursor name attr rest cursor1 cursor2 err :
    pushStyle cursor attr = Normal (cursor1, None) ->
    readStartElement cursor1 name attr = Normal (cursor2, Some err) ->
    Loop cursor (inl (xml.StartElement name attr) :: rest)
         (Normal (Some (icon cursor2), Some err))
| Loop_StartElement cursor name attr rest cursor1 cursor2 r :
    pushStyle cursor attr = Normal (cursor1, None) ->
    readStartElement cursor1 name attr = Normal (cursor2, None) ->
    Loop cursor2 rest r ->
    Loop cursor (inl (xml.StartElement name attr) :: rest) r
| Loop_pop_panic cursor name rest :
    styleStack cursor = [] ->
    Loop cursor (inl (xml.EndElement name) :: rest) Panic
| Loop_EndElement cursor name rest s top r :
    styleStack cursor = s ++ [top] ->
    Loop (endElement (set_styleStack s cursor) (xml.Local name)) rest r ->
    Loop cursor (inl (xml.EndElement name) :: rest) r
| Loop_CharData_panic cursor data rest :
    charData cursor data = Panic ->
    Loop cursor (inl (xml.CharData data) :: rest) Panic
| Loop_CharData cursor data rest cursor1 r :
    charData cursor data = Normal cursor1 ->
    Loop cursor1 rest r ->
    Loop cursor (inl (xml.CharData data) :: rest) r
| Loop_Comment cursor data rest r :
    Loop cursor rest r ->
    Loop cursor (inl (xml.Comment data) :: rest) r
| Loop_ProcInst cursor target inst rest r :
    Loop cursor rest r ->
    Loop cursor (inl (xml.ProcInst target inst) :: rest) r
| Loop_Directive cursor data rest r :
    Loop cursor rest r ->
    Loop cursor (inl (xml.Directive data) :: rest) r.

Definition ReadsIconStream (stream : io.Reader) (errMode : ErrorMode)
    (r : exec (option SvgIcon * option io.error)) : Prop :=
  Loop (newCursor errMode) stream r.

(** *** Nesting of a token sequence *)







(** What [encoding/xml] guarantees of the results of [Token], with [depth]
    elements open: up to the first error, no end-element comes without an
    open element. *)
Fixpoint wellNested (depth : nat) (decoder : io.Reader) : bool :=
  match decoder with
  | [] => true
  | inr _ :: _ => true
  | inl (xml.StartElement _ _) :: decoder => wellNested (S depth) decoder
  | inl (xml.EndElement _) :: decoder =>
      match depth with
      | O => false
      | S depth => wellNested depth decoder
      end
  | inl _ :: decoder => wellNested depth decoder
  end.

(** Character data has a title, or a description, to go to when the cursor
    is capturing one. *)
Definition textReady (cursor : iconCursor) : Prop :=
  (inTitleText cursor = true -> Titles (icon cursor) <> []) /\
  (inDescText cursor = true -> Descriptions (icon cursor) <> []).

(** The results of [Token] that match no case of the loop's type switch:
    comments, processing instructions and directives. *)
Definition ignorable (r : io.TokenResult) : bool :=
  match r with
  | inl (xml.Comment _) | inl (xml.ProcInst _ _) | inl (xml.Directive _) => true
  | _ => false
  end.

End Cursor.

(** *** The two cursor methods, from the specification *)

Section SpecMethods.

Context `{Declarations}.

(** What the specification leaves to the style model and to the handlers
    of the single elements: [overlay] resolves the recognised style
    attributes of an element over a clone of the parent scope, and gives
    the child scope with the error of a malformed value, if any;
    [element] gives the handler of a recognised element name. *)
Variable overlay : PathStyle -> list xml.Attr -> PathStyle * option io.error.

Variable element :
  string -> option (iconCursor -> list xml.Attr -> exec (iconCursor * option io.error)).




End SpecMethods.

End svgicon.

(** ** github.com/srwiley/rasterx, as far as [svgraster] uses it *)

Module rasterx.

(** The address of a [Dasher] on the heap. A [Dasher] embeds a [Stroker],
    which embeds a [Filler]. *)
Definition DasherAddr : Type := positive.

(** A [*Filler]: the address of the [Filler] inside the [Dasher] at [a]. *)
Inductive FillerAddr : Type :=
| FillerOf (a : DasherAddr).

(** [Points] is a [[5]float64]. *)
Record Gradient (Color : Type) : Type := {
  Points : Q * Q * Q * Q * Q;
  Stops : list (svgicon.GradStop Color);
  Bounds : svgicon.Bounds.t;
  Matrix : svgicon.Matrix2D;
  Spread : svgicon.SpreadMethod;
  Units : svgicon.GradientUnits;
  IsRadial : bool
}.
Arguments Points {Color} _.
Arguments Stops {Color} _.
Arguments Bounds {Color} _.
Arguments Matrix {Color} _.
Arguments Spread {Color} _.
Arguments Units {Color} _.
Arguments IsRadial {Color} _.

(** What a scanner is given as its colour: [ApplyOpacity] turns a colour
    and an opacity into one, [GetColorFunction] a gradient and an
    opacity. *)
Class Paints (Color : Type) : Type := {
  Paint : Type;
  ApplyOpacity : Color -> Q -> Paint;
  GetColorFunction : Gradient Color -> Q -> Paint
}.

(** The two methods of the interface [Scanner] that
    [setColorFromPattern] calls, on the state of the scanner. *)
Class Scanner (Color : Type) `{Paints Color} (S : Type) : Type := {
  SetColor : Paint -> S -> S;
  GetPathExtent : S -> fixed.Rectangle26_6
}.

End rasterx.

(** ** svgraster *)

Module svgraster.

Import svgicon.

(** [dasher] is a [*rasterx.Dasher]. *)
Record Driver : Type := { dasher : option rasterx.DasherAddr }.

(** [filler] embeds a [*rasterx.Filler], [stroker] a [*rasterx.Dasher]. *)
Record filler : Type := { Filler : option rasterx.FillerAddr }.

Record stroker : Type := { Dasher : option rasterx.DasherAddr }.

(** [NewDriver]; [d] is the pointer [rasterx.NewDasher] returns, which is
    never [nil]. *)
Definition NewDriver (d : rasterx.DasherAddr) : Driver := {| dasher := Some d |}.

(** [SetupDrawers]. The results are interface values: [None] is the
    [nil] interface, [Some v] the interface holding [v]. Taking the
    address [&rd.dasher.Filler] dereferences [rd.dasher], and panics when
    it is [nil]. *)
Definition SetupDrawers (rd : Driver) (willFill willStroke : bool)
    : exec (option filler * option stroker) :=
  f ← (if willFill then
         match dasher rd with
         | Some a => Normal (Some {| Filler := Some (rasterx.FillerOf a) |})
         | None => Panic
         end
       else Normal None);
  let s := if willStroke then Some {| Dasher := dasher rd |} else None in
  Normal (f, s).

Section Raster.

Context {Color : Type} `{rasterx.Paints Color}.

Definition toRasterxGradient (grad : Gradient Color) : rasterx.Gradient Color :=
  let '(points, isRadial) :=
    match Direction grad with
    | Linear x1 y1 x2 y2 => ((x1, y1, x2, y2, 0%Q), false)
    | Radial cx cy fx fy r _ => ((cx, cy, fx, fy, r), true)
    end in
  let stops := map (fun stop => stop) (Stops grad) in
  {| rasterx.Points := points;
     rasterx.Stops := stops;
     rasterx.Bounds := Bounds grad;
     rasterx.Matrix := Matrix grad;
     rasterx.Spread := Spread grad;
     rasterx.Units := Units grad;
     rasterx.IsRadial := isRadial |}.

Definition set_Bounds (b : Bounds.t) (g : Gradient Color) : Gradient Color :=
  {| Direction := Direction g; Stops := Stops g; Bounds := b;
     Matrix := Matrix g; Spread := Spread g; Units := Units g |}.

(** [float64(c)/64]; the conversion of an [int32] to [float64] is exact. *)
Definition float64_div64 (c : fixed.Int26_6) : Q := (inject_Z c / 64)%Q.

(** The body of [if color.Units == svgicon.ObjectBoundingBox]: the
    bounds computed from the path extent. *)
Definition extentBounds (fRect : fixed.Rectangle26_6) : Bounds.t :=
  let mnx := float64_div64 (fixed.X (fixed.Min fRect)) in
  let mny := float64_div64 (fixed.Y (fixed.Min fRect)) in
  let mxx := float64_div64 (fixed.X (fixed.Max fRect)) in
  let mxy := float64_div64 (fixed.Y (fixed.Max fRect)) in
  {| Bounds.X := mnx; Bounds.Y := mny;
     Bounds.W := (mxx - mnx)%Q; Bounds.H := (mxy - mny)%Q |}.

(** [setColorFromPattern]. [color] is a copy of the caller's pattern, so
    the assignment to [color.Bounds] is not seen by the caller. *)
Definition setColorFromPattern {S : Type} `{!rasterx.Scanner Color S}
    (color : Pattern Color) (opacity : Q) (scanner : S) : S :=
  match color with
  | PlainColor color =>
      rasterx.SetColor (rasterx.ApplyOpacity color opacity) scanner
  | GradientPattern color =>
      let color :=
        match Units color with
        | ObjectBoundingBox =>
            let fRect := rasterx.GetPathExtent scanner in
            set_Bounds (extentBounds fRect) color
        | _ => color
        end in
      let rasterxGradient := toRasterxGradient color in
      rasterx.SetColor (rasterx.GetColorFunction rasterxGradient opacity) scanner
  end.


(** A rational that a [float64] holds exactly: [m * 2^(-k)] with
    [|m| < 2^53], for the exponents that occur here. *)
Definition float64_exact (v : Q) : Prop :=
  exists (m : Z) (k : nat), Z.abs m < 2 ^ 53 /\ (k <= 1074)%nat /\
    (v == inject_Z m / inject_Z (2 ^ Z.of_nat k))%Q.

End Raster.

End svgraster.

(** ** Instances the properties are evaluated on *)

Module sample.

Import svgicon.

(** A style is the list of the attributes in force. *)
#[export] Instance declarations : Declarations := {|
  Color := Z;
  PathStyle := list xml.Attr;
  DefaultStyle := []
|}.

Definition local (a : xml.Attr) : string := xml.Local (xml.AttrName a).

Definition attr (name value : string) : xml.Attr :=
  {| xml.AttrName := {| xml.Space := ""; xml.Local := name |}; xml.Value := value |}.

Definition elem (name : string) : xml.Name :=
  {| xml.Space := ""; xml.Local := name |}.

Definition idOf (attrs : list xml.Attr) : string :=
  match filter (fun a => local a = "id") attrs with
  | a :: _ => xml.Value a
  | [] => ""
  end.

(** Pushes the parent style extended by the attributes; an attribute
    with an empty value is an error. *)
Definition sample_pushStyle (c : iconCursor) (attrs : list xml.Attr)
    : exec (iconCursor * option io.error) :=
  match last (styleStack c) with
  | None => Panic
  | Some parent =>
      if forallb (fun a => negb (String.eqb (xml.Value a) "")) attrs
      then Normal (set_styleStack (styleStack c ++ [parent ++ attrs]) c, None)
      else Normal (c, Some (io.errorString "style: empty value"))
  end.

(** Handles [svg], [g], [path], [defs], [title] and [desc]; any other
    element is an error in strict mode and is skipped otherwise. *)
Definition sample_readStartElement (c : iconCursor) (name : xml.Name)
    (attrs : list xml.Attr) : exec (iconCursor * option io.error) :=
  let n := xml.Local name in
  if String.eqb n "svg" then Normal (c, None)
  else if String.eqb n "defs" then Normal (set_inDefs true c, None)
  else if String.eqb n "title" then
    Normal (set_inTitleText true
              (set_icon (set_Titles (Titles (icon c) ++ [""]) (icon c)) c), None)
  else if String.eqb n "desc" then
    Normal (set_inDescText true
              (set_icon (set_Descriptions (Descriptions (icon c) ++ [""]) (icon c)) c),
            None)
  else if String.eqb n "g" || String.eqb n "path" then
    if inDefs c
    then Normal (set_currentDef
                   (currentDef c ++ [{| ID := idOf attrs; Tag := n; Attrs := attrs |}]) c,
                 None)
    else Normal (c, None)
  else
    match errorMode c with
    | StrictErrorMode => Normal (c, Some (io.errorString ("cannot process " +:+ n)))
    | _ => Normal (c, None)
    end.

#[export] Instance methods : CursorMethods := {|
  pushStyle := sample_pushStyle;
  readStartElement := sample_readStartElement
|}.

(** [<svg><defs><g id="a"><path d="M0,0"/></g></defs><title>ok</title></svg>] *)
Definition document : list xml.Token :=
  [ xml.StartElement (elem "svg") [];
    xml.StartElement (elem "defs") [];
    xml.StartElement (elem "g") [attr "id" "a"];
    xml.StartElement (elem "path") [attr "d" "M0,0"];
    xml.EndElement (elem "path");
    xml.EndElement (elem "g");
    xml.EndElement (elem "defs");
    xml.StartElement (elem "title") [];
    xml.CharData "ok";
    xml.EndElement (elem "title");
    xml.EndElement (elem "svg") ].

(** The only file is [icon.svg], which holds [document]. *)
Definition files : os.FileSystem := fun name =>
  if String.eqb name "icon.svg" then inl (map inl document)
  else inr (io.errorString ("open " +:+ name +:+ ": no such file or directory")).

(** Translation by the integer part of [(E, F)], in 1/64 units. *)
#[export] Instance transforms : Transforms := {|
  trMove M p := {| fixed.X := fixed.X p + 64 * Qfloor (E M);
                   fixed.Y := fixed.Y p + 64 * Qfloor (F M) |};
  trLine M p := {| fixed.X := fixed.X p + 64 * Qfloor (E M);
                   fixed.Y := fixed.Y p + 64 * Qfloor (F M) |};
  trQuad M p q := (p, q);
  trCubic M p q r := (p, q, r)
|}.

(** A scanner that keeps the colour it was given and a fixed extent. *)
Record scanner : Type := {
  colour : option (Z * Q + rasterx.Gradient Z * Q);
  extent : fixed.Rectangle26_6
}.

#[export] Instance paints : rasterx.Paints Z := {|
  rasterx.Paint := Z * Q + rasterx.Gradient Z * Q;
  rasterx.ApplyOpacity c o := inl (c, o);
  rasterx.GetColorFunction g o := inr (g, o)
|}.

#[export] Instance scanners : rasterx.Scanner Z scanner := {|
  rasterx.SetColor p s := {| colour := Some p; extent := extent s |};
  rasterx.GetPathExtent s := extent s
|}.

(** A cursor inside [<defs><g id="a">], capturing a title whose text so far
    is [o]. *)
Definition sample_group : list definition :=
  [{| ID := "a"; Tag := "g"; Attrs := [attr "id" "a"] |}].

Definition sample_cursor : iconCursor :=
  set_inTitleText true
    (set_icon (set_Titles ["o"] (icon (newCursor IgnoreErrorMode)))
       (set_currentDef sample_group
          (set_inDefs true (set_styleStack [[]; []; []] (newCursor IgnoreErrorMode))))).



End sample.

(** * Properties *)

Import svgicon.

(** ** Paths *)

Section PathProperties.

Lemma ToSVGPath_nil : ToSVGPath [] = "".
Proof. reflexivity. Qed.

Lemma ToSVGPath_one (op : Operation) : ToSVGPath [op] = chunk op.
Proof. reflexivity. Qed.

Lemma ToSVGPath_cons (op op' : Operation) (p : Path) :
  ToSVGPath (op :: op' :: p) = chunk op +:+ " " +:+ ToSVGPath (op' :: p).
Proof. reflexivity. Qed.

(** A coordinate below [2^24] in absolute value is converted exactly. *)
Lemma coord_small (c : fixed.Int26_6) :
  Z.abs c < 2 ^ 24 -> coord c = (inject_Z c / 64)%Q.
Proof.
  intros Hc. unfold coord, fmt.float32_of_int32.
  destruct (Z.ltb_spec (Z.abs c) (2 ^ 24)) as [_ | Hge]; [reflexivity | lia].
Qed.

(** Above [2^24] the conversion to [float32] rounds: [16777217/64] is
    printed as [262144.000], not as [262144.016]. *)
Example ToSVGPath_rounds :
  ToSVGPath [OpLineTo {| fixed.X := 16777217; fixed.Y := 4 |}] = "L262144.000,0.062".
Proof. vm_compute. reflexivity. Qed.

Lemma appends_snoc (p : Path) (op : Operation) : appends p op (p ++ [op]).
Proof.
  unfold appends, Path in *. split; [| split].
  - rewrite length_app. simpl. lia.
  - now apply list_lookup_middle.
  - intros i Hi. now apply lookup_app_l.
Qed.

End PathProperties.

(** C1. [ToSVGPath] does not print a [CubicTo] operation as one [C] and six
    coordinates: the chunk of every such operation starts with the letter
    twice, as the path [M1,2 C0,0 1,1 2,-0.5 Z] shows. *)
Theorem ToSVGPath_CubicTo_prints_C_twice :
  (forall p0 p1 p2 : fixed.Point26_6,
     ToSVGPath [OpCubicTo p0 p1 p2] =
     "CC" +:+ String.concat ","
       (map fmt.verb_4_3f
            [coord (fixed.X p0); coord (fixed.Y p0); coord (fixed.X p1);
             coord (fixed.Y p1); coord (fixed.X p2); coord (fixed.Y p2)])) /\
  ToSVGPath [OpMoveTo {| fixed.X := 64; fixed.Y := 128 |};
             OpCubicTo {| fixed.X := 0; fixed.Y := 0 |}
                       {| fixed.X := 64; fixed.Y := 64 |}
                       {| fixed.X := 128; fixed.Y := -32 |};
             OpClose]
  = "M1.000,2.000 CC0.000,0.000,1.000,1.000,2.000,-0.500 Z".
Proof.
  split.
  - intros p0 p1 p2. reflexivity.
  - vm_compute. reflexivity.
Qed.

(** C10. [Stop(false)] leaves the path as it is; [Start], [Line],
    [QuadBezier], [CubeBezier] and [Stop(true)] each add one operation, with
    the points given, after the operations already there, which stay as
    they were; [Clear] leaves the empty path. *)
Theorem Path_is_append_only (p : Path) (a b c d : fixed.Point26_6) :
  Path_Stop false p = p /\
  appends p (OpMoveTo a) (Path_Start a p) /\
  appends p (OpLineTo b) (Path_Line b p) /\
  appends p (OpQuadTo b c) (Path_QuadBezier b c p) /\
  appends p (OpCubicTo b c d) (Path_CubeBezier b c d p) /\
  appends p OpClose (Path_Stop true p) /\
  Path_Clear p = [].
Proof.
  split; [reflexivity |].
  split; [destruct a; apply appends_snoc |].
  split; [destruct b; apply appends_snoc |].
  split; [apply appends_snoc |].
  split; [apply appends_snoc |].
  split; [apply appends_snoc |].
  now destruct p.
Qed.

(** ** Replaying an operation on a drawer *)

(** C6. On every drawer and for every transform, replaying [OpMoveTo] is
    [Stop(false)] followed by [Start] at the transformed point, and
    replaying [OpClose] is [Stop(true)]: the recording drawer receives
    exactly these calls, and a [Path] used as the drawer gets the new
    [MoveTo] and no [Close]. *)
Theorem drawTo_MoveTo_and_Close `{Transforms} (M : Matrix2D) (p : fixed.Point26_6) :
  (forall (D : Type) (drawer : Drawer D) (d : D),
     drawTo (OpMoveTo p) d M = Start (trMove M p) (Stop false d) /\
     drawTo OpClose d M = Stop true d) /\
  (forall log : list DrawerCall,
     drawTo (OpMoveTo p) log M = log ++ [CallStop false; CallStart (trMove M p)] /\
     drawTo OpClose log M = log ++ [CallStop true]) /\
  (forall path : Path,
     drawTo (OpMoveTo p) path M = path ++ [OpMoveTo (trMove M p)] /\
     drawTo OpClose path M = path ++ [OpClose]).
Proof.
  split; [| split].
  - intros D drawer d. split; reflexivity.
  - intros log. split; [| reflexivity].
    simpl. now rewrite <- app_assoc.
  - intros path. split; [| reflexivity].
    simpl. unfold Path_Start. now destruct (trMove M p).
Qed.

(** ** The raster driver *)

Import svgraster.

(** C7. [SetupDrawers] returns a filler that is not [nil] exactly when
    [willFill] is set and a stroker that is not [nil] exactly when
    [willStroke] is set; it returns unless a fill is asked of a driver whose
    dasher is [nil]. *)
Theorem SetupDrawers_handles (rd : Driver) (willFill willStroke : bool) :
  match SetupDrawers rd willFill willStroke with
  | Normal (f, s) =>
      (f <> None <-> willFill = true) /\ (s <> None <-> willStroke = true)
  | Panic => willFill = true /\ dasher rd = None
  end.
Proof.
  unfold SetupDrawers.
  destruct willFill, willStroke, (dasher rd) as [a |]; simpl;
    repeat split; intros; congruence.
Qed.

(** A driver made by [NewDriver] always returns its handles. *)
Lemma SetupDrawers_NewDriver (d : rasterx.DasherAddr) (willFill willStroke : bool) :
  exists f s, SetupDrawers (NewDriver d) willFill willStroke = Normal (f, s).
Proof. destruct willFill, willStroke; simpl; eauto. Qed.

Section RasterProperties.

Context {Color : Type} `{rasterx.Paints Color}.

Lemma set_Bounds_same (g : Gradient Color) : set_Bounds (Bounds g) g = g.
Proof. now destruct g. Qed.

Lemma float64_div64_exact (c : fixed.Int26_6) :
  fixed.int32_range c -> float64_exact (float64_div64 c).
Proof.
  unfold fixed.int32_range. intros Hc. exists c, 6%nat.
  split; [lia |]. split; [lia |]. reflexivity.
Qed.

Lemma float64_sub_exact (a b : fixed.Int26_6) :
  fixed.int32_range a -> fixed.int32_range b ->
  float64_exact (float64_div64 b - float64_div64 a).
Proof.
  unfold fixed.int32_range. intros Ha Hb. exists (b - a), 6%nat.
  split; [lia |]. split; [lia |].
  unfold float64_div64, Qeq. simpl. lia.
Qed.

(** No operation of [extentBounds] rounds: every value it computes from
    an extent of [int32] coordinates is held exactly by a [float64]. *)
Lemma extent_is_exact (fRect : fixed.Rectangle26_6) :
  fixed.int32_range (fixed.X (fixed.Min fRect)) ->
  fixed.int32_range (fixed.Y (fixed.Min fRect)) ->
  fixed.int32_range (fixed.X (fixed.Max fRect)) ->
  fixed.int32_range (fixed.Y (fixed.Max fRect)) ->
  float64_exact (Bounds.X (extentBounds fRect)) /\
  float64_exact (Bounds.Y (extentBounds fRect)) /\
  float64_exact (Bounds.W (extentBounds fRect)) /\
  float64_exact (Bounds.H (extentBounds fRect)).
Proof.
  intros H1 H2 H3 H4. simpl.
  auto using float64_div64_exact, float64_sub_exact.
Qed.

(** C8. A gradient in [ObjectBoundingBox] mode reaches the colour
    function with bounds taken from the scanner's path extent: the
    origin is the minimum corner divided by 64, the width and the height
    are the sides of the extent divided by 64. A gradient in user-space
    mode reaches it with its own bounds, and a plain colour is set with
    the opacity applied. *)
Theorem setColorFromPattern_resolves {S : Type} `{!rasterx.Scanner Color S}
    (opacity : Q) (scanner : S) :
  (forall g : Gradient Color,
     exists b : Bounds.t,
       setColorFromPattern (GradientPattern g) opacity scanner =
       rasterx.SetColor
         (rasterx.GetColorFunction (toRasterxGradient (set_Bounds b g)) opacity)
         scanner /\
       rasterx.Bounds (toRasterxGradient (set_Bounds b g)) = b /\
       match Units g with
       | ObjectBoundingBox =>
           let fRect := rasterx.GetPathExtent scanner in
           (Bounds.X b == inject_Z (fixed.X (fixed.Min fRect)) / 64)%Q /\
           (Bounds.Y b == inject_Z (fixed.Y (fixed.Min fRect)) / 64)%Q /\
           (Bounds.W b ==
              inject_Z (fixed.X (fixed.Max fRect) - fixed.X (fixed.Min fRect)) / 64)%Q /\
           (Bounds.H b ==
              inject_Z (fixed.Y (fixed.Max fRect) - fixed.Y (fixed.Min fRect)) / 64)%Q
       | UserSpaceOnUse => b = Bounds g /\ set_Bounds b g = g
       end) /\
  (forall c : Color,
     setColorFromPattern (PlainColor c) opacity scanner =
     rasterx.SetColor (rasterx.ApplyOpacity c opacity) scanner).
Proof.
  split; [| reflexivity].
  intros g. destruct (Units g) eqn:Hu.
  - exists (extentBounds (rasterx.GetPathExtent scanner)).
    split; [| split].
    + unfold setColorFromPattern. now rewrite Hu.
    + unfold toRasterxGradient. simpl. now destruct (Direction g).
    + simpl. repeat split; try reflexivity;
        unfold float64_div64, Qeq; simpl; lia.
  - exists (Bounds g).
    split; [| split].
    + rewrite set_Bounds_same. unfold setColorFromPattern. now rewrite Hu.
    + unfold toRasterxGradient. simpl. now destruct (Direction g).
    + split; [reflexivity | apply set_Bounds_same].
Qed.

End RasterProperties.

(** ** The parser loop *)

Section LoopProperties.

Context `{Declarations} `{!CursorMethods}.

Lemma pop_snoc (s : list PathStyle) (top : PathStyle) : pop (s ++ [top]) = Normal s.
Proof.
  unfold pop. rewrite length_app, Nat.add_comm. simpl.
  now rewrite take_app_length.
Qed.

Lemma snoc_case {T : Type} (l : list T) :
  l = [] \/ exists (s : list T) (top : T), l = s ++ [top].
Proof. induction l using rev_ind; eauto. Qed.

Lemma pop_nil : pop [] = Panic.
Proof. reflexivity. Qed.

Lemma pop_Normal (st s : list PathStyle) :
  pop st = Normal s -> exists top, st = s ++ [top].
Proof.
  destruct (snoc_case st) as [-> | [s' [top ->]]]; [discriminate |].
  rewrite pop_snoc. intros [= <-]. now exists top.
Qed.

Lemma endElement_styleStack (cursor : iconCursor) (local : string) :
  styleStack (endElement cursor local) = styleStack cursor.
Proof.
  unfold endElement.
  repeat match goal with
         | |- context [if ?b then _ else _] => destruct b
         | |- context [match currentDef ?c with _ => _ end] => destruct (currentDef c)
         end; reflexivity.
Qed.

Lemma token_EndElement (cursor : iconCursor) (name : xml.Name)
    (s : list PathStyle) (top : PathStyle) :
  styleStack cursor = s ++ [top] ->
  token cursor (xml.EndElement name) =
  Normal (endElement (set_styleStack s cursor) (xml.Local name), None).
Proof. intros Hs. unfold token. rewrite Hs, pop_snoc. reflexivity. Qed.

(** Tokens that are handled without an error can be split off the front
    of the stream. *)
Lemma loop_app (ts : list xml.Token) (rest : io.Reader) (cursor cursor' : iconCursor) :
  loop cursor (map inl ts) = Normal (cursor', None) ->
  loop cursor (map inl ts ++ rest) = loop cursor' rest.
Proof.
  revert cursor. induction ts as [| t ts IH]; intros cursor Hts; simpl in *.
  - now injection Hts as ->.
  - destruct (token cursor t) as [[c1 [e |]] |]; simpl in *;
      try discriminate.
    now apply IH.
Qed.

Lemma loop_snoc (ts : list xml.Token) (t : xml.Token) (cursor cursor' : iconCursor) :
  loop cursor (map inl ts) = Normal (cursor', None) ->
  loop cursor (map inl (ts ++ [t])) =
  '(c, err) ← token cursor' t; Normal (c, err).
Proof.
  intros Hts. rewrite map_app. rewrite (loop_app _ _ _ _ Hts). simpl.
  destruct (token cursor' t) as [[c1 [e |]] |]; reflexivity.
Qed.

(** *** The function computes the relation, and the relation is a function *)

Lemma Loop_loop (decoder : io.Reader) (cursor : iconCursor) :
  Loop cursor decoder
    ('(cursor', err) ← loop cursor decoder; Normal (Some (icon cursor'), err)).
Proof.
  revert cursor. induction decoder as [| [t | err] decoder IH]; intros cursor.
  - apply Loop_exhausted.
  - destruct t as [name attr | name | data | data | target inst | data].
    + simpl. destruct (pushStyle cursor attr) as [[c1 [e |]] |] eqn:Hpush; simpl.
      * now apply Loop_pushStyle_error.
      * destruct (readStartElement c1 name attr) as [[c2 [e |]] |] eqn:Hread; simpl.
        -- now apply Loop_readStartElement_error with c1.
        -- apply Loop_StartElement with c1 c2; auto.
        -- now apply Loop_readStartElement_panic with c1.
      * now apply Loop_pushStyle_panic.
    + destruct (snoc_case (styleStack cursor)) as [Hs | [s [top Hs]]].
      * simpl. rewrite Hs. simpl. now apply Loop_pop_panic.
      * cbn [loop]. rewrite (token_EndElement _ _ _ _ Hs). simpl.
        apply Loop_EndElement with s top; auto.
    + simpl. destruct (charData cursor data) as [c1 |] eqn:Hdata; simpl.
      * apply Loop_CharData with c1; auto.
      * now apply Loop_CharData_panic.
    + simpl. apply Loop_Comment, IH.
    + simpl. apply Loop_ProcInst, IH.
    + simpl. apply Loop_Directive, IH.
  - simpl. destruct (decide (err = io.EOF)) as [-> | Hne]; simpl.
    + apply Loop_EOF.
    + now apply Loop_error.
Qed.

Lemma ReadsIconStream_ReadIconStream (stream : io.Reader) (errMode : ErrorMode) :
  ReadsIconStream stream errMode (ReadIconStream stream errMode).
Proof. apply Loop_loop. Qed.

Ltac same_call :=
  repeat match goal with
         | H1 : ?f = _, H2 : ?f = _ |- _ =>
             rewrite H1 in H2; inversion H2; subst; clear H2
         end.

Lemma Loop_functional (cursor : iconCursor) (decoder : io.Reader)
    (r1 r2 : exec (option SvgIcon * option io.error)) :
  Loop cursor decoder r1 -> Loop cursor decoder r2 -> r1 = r2.
Proof.
  intros Hfirst. revert r2.
  induction Hfirst; intros r2 Hsecond; inversion Hsecond; subst; same_call;
    try reflexivity; try contradiction; auto.
  - match goal with
    | H : [] = _ ++ [_] |- _ => now destruct (app_cons_not_nil _ _ _ H)
    end.
  - match goal with
    | H : _ ++ [_] = [] |- _ => now destruct (app_cons_not_nil _ _ _ (eq_sym H))
    end.
  - match goal with
    | H : ?s1 ++ [?t1] = ?s2 ++ [?t2] |- _ =>
        apply app_inj_tail in H; destruct H as [-> ->]
    end.
    auto.
Qed.

End LoopProperties.

Section ReadIconStreamProperties.

Context `{Declarations} `{!CursorMethods}.

(** C3. When the tokens before it were handled without an error, an
    error of the token stream other than [io.EOF] ends [ReadIconStream]
    at once, in every mode and whatever the stream would still hold: it
    returns the document as the tokens before left it, and that error.
    At [io.EOF], met in the stream or by exhausting it, the document is
    returned with a [nil] error. *)
Theorem ReadIconStream_stream_error (errMode : ErrorMode) (ts : list xml.Token)
    (rest : io.Reader) (cursor : iconCursor) (err : io.error) :
  loop (newCursor errMode) (map inl ts) = Normal (cursor, None) ->
  (err <> io.EOF ->
   ReadIconStream (map inl ts ++ inr err :: rest) errMode =
   Normal (Some (icon cursor), Some err)) /\
  ReadIconStream (map inl ts ++ inr io.EOF :: rest) errMode =
  Normal (Some (icon cursor), None) /\
  ReadIconStream (map inl ts) errMode = Normal (Some (icon cursor), None).
Proof.
  intros Hts. unfold ReadIconStream. split; [| split].
  - intros Hne. rewrite (loop_app _ _ _ _ Hts). simpl.
    now destruct (decide (err = io.EOF)).
  - now rewrite (loop_app _ _ _ _ Hts).
  - now rewrite Hts.
Qed.

(** C4, as the code has it. Whenever [ReadIconStream] returns, the
    document it returns is not [nil], whatever the stream and the mode.
    [ReadIcon] returns what [ReadIconStream] returns on the file when the
    file opens, and a [nil] document with the error of [os.Open] when it
    does not. *)
Theorem entry_points_documents (stream : io.Reader) (fs : os.FileSystem)
    (iconFile : string) (errMode : ErrorMode) :
  match ReadIconStream stream errMode with
  | Normal (doc, _) => doc <> None
  | Panic => True
  end /\
  match fs iconFile with
  | inl fin => ReadIcon fs iconFile errMode = ReadIconStream fin errMode
  | inr errf => ReadIcon fs iconFile errMode = Normal (None, Some errf)
  end.
Proof.
  split.
  - unfold ReadIconStream.
    destruct (loop (newCursor errMode) stream) as [[c e] |]; simpl; [discriminate | exact I].
  - unfold ReadIcon. now destruct (fs iconFile).
Qed.

Lemma token_EndElement_defs (cursor : iconCursor) (name : xml.Name)
    (s : list PathStyle) (top : PathStyle) :
  xml.Local name = "defs" ->
  styleStack cursor = s ++ [top] ->
  token cursor (xml.EndElement name) =
  Normal
    (set_inDefs false
       (match currentDef cursor with
        | first :: _ =>
            set_currentDef []
              (set_icon
                 (set_defs (<[ID first := currentDef cursor]> (defs (icon cursor)))
                           (icon cursor))
                 (set_styleStack s cursor))
        | [] => set_styleStack s cursor
        end), None).
Proof.
  intros Hname Hs. rewrite (token_EndElement _ _ _ _ Hs), Hname.
  unfold endElement. simpl.
  now destruct (currentDef cursor).
Qed.

(** C5. The end of a [defs] element pops the style stack and clears
    [inDefs]. When [currentDef] is not empty it is stored in [defs] under
    the [ID] of its first entry and [currentDef] becomes empty; when it
    is empty the document is left as it is. Nothing else changes. *)
Theorem EndElement_defs (cursor : iconCursor) (name : xml.Name)
    (s : list PathStyle) (top : PathStyle) :
  xml.Local name = "defs" ->
  styleStack cursor = s ++ [top] ->
  token cursor (xml.EndElement name) =
  Normal
    ({| styleStack := s;
        icon := match currentDef cursor with
                | first :: _ =>
                    set_defs (<[ID first := currentDef cursor]> (defs (icon cursor)))
                             (icon cursor)
                | [] => icon cursor
                end;
        errorMode := errorMode cursor;
        inDefs := false;
        currentDef := [];
        inTitleText := inTitleText cursor;
        inDescText := inDescText cursor;
        inGrad := inGrad cursor |}, None).
Proof.
  intros Hname Hs. rewrite (token_EndElement_defs _ _ _ _ Hname Hs).
  destruct (currentDef cursor) eqn:Hdef;
    unfold set_inDefs, set_currentDef, set_icon, set_styleStack; simpl;
    now rewrite ?Hdef.
Qed.

(** What the end of [defs] stores can be read back, and no other
    definition group is touched. *)
Lemma EndElement_defs_lookup (cursor cursor' : iconCursor) (name : xml.Name)
    (first : definition) (others : list definition) :
  xml.Local name = "defs" ->
  currentDef cursor = first :: others ->
  token cursor (xml.EndElement name) = Normal (cursor', None) ->
  defs (icon cursor') !! ID first = Some (first :: others) /\
  forall id : string, id <> ID first ->
    defs (icon cursor') !! id = defs (icon cursor) !! id.
Proof.
  intros Hname Hdef Htok.
  destruct (snoc_case (styleStack cursor)) as [Hs | [s [top Hs]]].
  - unfold token in Htok. rewrite Hs in Htok. discriminate.
  - rewrite (token_EndElement_defs _ _ _ _ Hname Hs), Hdef in Htok.
    injection Htok as <-. simpl. split.
    + apply lookup_insert_eq.
    + intros id Hid. now apply lookup_insert_ne.
Qed.

End ReadIconStreamProperties.

(** ** The depth of the style stack *)

Section Counting.




End Counting.

Section StyleStackDepth.

Context `{Declarations} `{!CursorMethods}.

(** The two methods are not among the sources. What is assumed of them
    is what the specification says of them: [pushStyle], when it returns
    no error, has put one frame on the stack, and [readStartElement]
    returns with the stack as deep as it found it. *)
Hypothesis pushStyle_pushes_one :
  forall (c c' : iconCursor) (attr : list xml.Attr),
    pushStyle c attr = Normal (c', None) ->
    length (styleStack c') = S (length (styleStack c)).

Hypothesis readStartElement_keeps_depth :
  forall (c c' : iconCursor) (name : xml.Name) (attr : list xml.Attr)
         (err : option io.error),
    readStartElement c name attr = Normal (c', err) ->
    length (styleStack c') = length (styleStack c).







End StyleStackDepth.

Section SpecStyleStackDepth.

Context `{Declarations}.

Variable overlay : PathStyle -> list xml.Attr -> PathStyle * option io.error.

Variable element :
  string -> option (iconCursor -> list xml.Attr -> exec (iconCursor * option io.error)).






End SpecStyleStackDepth.

(** ** [ReadIconStream] returns *)

Section Returns.

Context `{Declarations} `{!CursorMethods}.

(** What is assumed of the two methods that are not among the sources:
    they return (on a stack that is not empty, for [pushStyle], which reads
    its top), they keep the depth of the stack as in [styleStack_depth],
    and they open a title or a description before they set the cursor to
    capture its text. *)
Hypothesis pushStyle_returns :
  forall (c : iconCursor) (attr : list xml.Attr),
    styleStack c <> [] -> pushStyle c attr <> Panic.

Hypothesis readStartElement_returns :
  forall (c : iconCursor) (name : xml.Name) (attr : list xml.Attr),
    readStartElement c name attr <> Panic.

Hypothesis pushStyle_pushes_one :
  forall (c c' : iconCursor) (attr : list xml.Attr),
    pushStyle c attr = Normal (c', None) ->
    length (styleStack c') = S (length (styleStack c)).

Hypothesis readStartElement_keeps_depth :
  forall (c c' : iconCursor) (name : xml.Name) (attr : list xml.Attr)
         (err : option io.error),
    readStartElement c name attr = Normal (c', err) ->
    length (styleStack c') = length (styleStack c).

Hypothesis pushStyle_textReady :
  forall (c c' : iconCursor) (attr : list xml.Attr),
    pushStyle c attr = Normal (c', None) -> textReady c -> textReady c'.

Hypothesis readStartElement_textReady :
  forall (c c' : iconCursor) (name : xml.Name) (attr : list xml.Attr),
    readStartElement c name attr = Normal (c', None) -> textReady c -> textReady c'.

Lemma appendToLast_returns (l : list string) (data : string) :
  l <> [] -> exists l', appendToLast l data = Normal l' /\ l' <> [].
Proof.
  intros Hl. destruct (snoc_case l) as [-> | [s [top ->]]]; [contradiction |].
  unfold appendToLast. rewrite length_app, Nat.add_comm. simpl.
  rewrite list_lookup_middle by reflexivity.
  eexists. split; [reflexivity |].
  intros Hnil. apply (f_equal length) in Hnil.
  rewrite length_insert, length_app in Hnil. simpl in Hnil. lia.
Qed.

Lemma charData_returns (c : iconCursor) (data : string) :
  textReady c ->
  exists c', charData c data = Normal c' /\ textReady c' /\
             styleStack c' = styleStack c.
Proof.
  intros [Ht Hd]. unfold charData.
  destruct (inTitleText c) eqn:Etitle; destruct (inDescText c) eqn:Edesc.
  - destruct (appendToLast_returns _ data (Ht eq_refl)) as (t' & -> & Ht').
    simpl. rewrite Edesc.
    destruct (appendToLast_returns _ data (Hd eq_refl)) as (d' & -> & Hd').
    simpl. eexists. split; [reflexivity |]. now repeat split.
  - destruct (appendToLast_returns _ data (Ht eq_refl)) as (t' & -> & Ht').
    simpl. rewrite Edesc.
    eexists. split; [reflexivity |]. repeat split; simpl; congruence.
  - simpl. rewrite Edesc.
    destruct (appendToLast_returns _ data (Hd eq_refl)) as (d' & -> & Hd').
    simpl. eexists. split; [reflexivity |]. repeat split; simpl; congruence.
  - simpl. rewrite Edesc.
    eexists. split; [reflexivity |]. repeat split; simpl; congruence.
Qed.

Lemma endElement_textReady (c : iconCursor) (local : string) :
  textReady c -> textReady (endElement c local).
Proof.
  intros [Ht Hd]. unfold endElement, textReady.
  repeat match goal with
         | |- context [if ?b then _ else _] => destruct b
         | |- context [match currentDef ?c with _ => _ end] => destruct (currentDef c)
         end; simpl; split; auto; discriminate.
Qed.

Lemma loop_returns (decoder : io.Reader) (depth : nat) (c : iconCursor) :
  wellNested depth decoder = true ->
  length (styleStack c) = S depth ->
  textReady c ->
  exists (c' : iconCursor) (err : option io.error), loop c decoder = Normal (c', err).
Proof.
  revert depth c.
  induction decoder as [| [t | e] decoder IH]; intros depth c Hwn Hdepth Hready.
  - simpl. eauto.
  - destruct t as [name attr | name | data | data | target inst | data];
      simpl in Hwn; cbn [loop].
    + simpl. pose proof (pushStyle_returns c attr) as Hpush.
      destruct (pushStyle c attr) as [[c1 [e |]] |] eqn:Epush; simpl.
      * eauto.
      * pose proof (readStartElement_returns c1 name attr) as Hread.
        destruct (readStartElement c1 name attr) as [[c2 [e |]] |] eqn:Eread; simpl.
        -- eauto.
        -- apply (IH (S depth)); auto.
           ++ rewrite (readStartElement_keeps_depth _ _ _ _ _ Eread).
              rewrite (pushStyle_pushes_one _ _ _ Epush). now rewrite Hdepth.
           ++ eauto.
        -- contradiction.
      * exfalso. apply Hpush; [| reflexivity].
        intros Hnil. rewrite Hnil in Hdepth. discriminate.
    + destruct depth as [| depth]; [discriminate |].
      destruct (snoc_case (styleStack c)) as [Hs | [s [top Hs]]].
      * rewrite Hs in Hdepth. discriminate.
      * rewrite (token_EndElement _ _ _ _ Hs). simpl.
        apply (IH depth); auto.
        -- rewrite endElement_styleStack. simpl.
           rewrite Hs, length_app in Hdepth. simpl in Hdepth. lia.
        -- apply endElement_textReady. exact Hready.
    + simpl. destruct (charData_returns c data Hready) as (c1 & -> & Hready1 & Hs1).
      simpl. apply (IH depth); auto. now rewrite Hs1.
    + simpl. now apply (IH depth).
    + simpl. now apply (IH depth).
    + simpl. now apply (IH depth).
  - simpl. destruct (decide (e = io.EOF)); eauto.
Qed.

(** On the token streams of [encoding/xml], in every mode,
    [ReadIconStream] returns, and the document it returns is not [nil]. *)
Lemma ReadIconStream_returns (stream : io.Reader) (errMode : ErrorMode) :
  wellNested 0 stream = true ->
  exists (doc : SvgIcon) (err : option io.error),
    ReadIconStream stream errMode = Normal (Some doc, err).
Proof.
  intros Hwn. unfold ReadIconStream.
  destruct (loop_returns stream 0 (newCursor errMode) Hwn) as (c & err & ->).
  - reflexivity.
  - split; discriminate.
  - simpl. eauto.
Qed.

End Returns.

(** ** The properties on a sample document *)

Import sample.

Lemma sample_pushStyle_pushes_one (c c' : iconCursor) (attr : list xml.Attr) :
  pushStyle c attr = Normal (c', None) ->
  length (styleStack c') = S (length (styleStack c)).
Proof.
  simpl. unfold sample_pushStyle.
  destruct (last (styleStack c)); [| discriminate].
  destruct (forallb _ attr); intros [= <-]. simpl.
  rewrite length_app. simpl. lia.
Qed.

Lemma sample_readStartElement_keeps_depth (c c' : iconCursor) (name : xml.Name)
    (attr : list xml.Attr) (err : option io.error) :
  readStartElement c name attr = Normal (c', err) ->
  length (styleStack c') = length (styleStack c).
Proof.
  simpl. unfold sample_readStartElement.
  repeat match goal with
         | |- context [if ?b then _ else _] => destruct b
         | |- context [match errorMode c with _ => _ end] => destruct (errorMode c)
         end; intros [= <- <-]; reflexivity.
Qed.

Lemma sample_pushStyle_returns (c : iconCursor) (attr : list xml.Attr) :
  styleStack c <> [] -> pushStyle c attr <> Panic.
Proof.
  simpl. unfold sample_pushStyle. intros Hs.
  destruct (snoc_case (styleStack c)) as [Hnil | [s [top ->]]]; [contradiction |].
  rewrite last_snoc. now destruct (forallb _ attr).
Qed.

Lemma sample_readStartElement_returns (c : iconCursor) (name : xml.Name)
    (attr : list xml.Attr) :
  readStartElement c name attr <> Panic.
Proof.
  simpl. unfold sample_readStartElement.
  repeat match goal with
         | |- context [if ?b then _ else _] => destruct b
         | |- context [match errorMode c with _ => _ end] => destruct (errorMode c)
         end; discriminate.
Qed.

Lemma sample_pushStyle_textReady (c c' : iconCursor) (attr : list xml.Attr) :
  pushStyle c attr = Normal (c', None) -> textReady c -> textReady c'.
Proof.
  simpl. unfold sample_pushStyle.
  destruct (last (styleStack c)); [| discriminate].
  destruct (forallb _ attr); intros [= <-]. trivial.
Qed.

Lemma sample_readStartElement_textReady (c c' : iconCursor) (name : xml.Name)
    (attr : list xml.Attr) :
  readStartElement c name attr = Normal (c', None) -> textReady c -> textReady c'.
Proof.
  simpl. unfold sample_readStartElement, textReady. intros Hread [Ht Hd].
  repeat match type of Hread with
         | context [if ?b then _ else _] => destruct b
         | context [match errorMode c with _ => _ end] => destruct (errorMode c)
         end; injection Hread as <-; simpl; split; auto;
    intros _ Hnil; symmetry in Hnil; now apply app_cons_not_nil in Hnil.
Qed.

(** With the sample methods [ReadIconStream] returns on the sample
    document, also when a syntax error ends it early. *)
Lemma ReadIconStream_returns_witness :
  wellNested 0 (map inl (take 5 document) ++ [inr (io.errorString "XML syntax error")])
  = true /\
  exists (doc : SvgIcon) (err : option io.error),
    ReadIconStream
      (map inl (take 5 document) ++ [inr (io.errorString "XML syntax error")])
      StrictErrorMode = Normal (Some doc, err).
Proof.
  split; [reflexivity |].
  apply (ReadIconStream_returns sample_pushStyle_returns
           sample_readStartElement_returns sample_pushStyle_pushes_one
           sample_readStartElement_keeps_depth sample_pushStyle_textReady
           sample_readStartElement_textReady).
  reflexivity.
Defined.


(** A syntax error after [<svg><defs><g id="a">]. *)
Lemma ReadIconStream_stream_error_witness :
  exists cursor : iconCursor,
    loop (newCursor StrictErrorMode) (map inl (take 3 document)) = Normal (cursor, None) /\
    ReadIconStream (map inl (take 3 document) ++
                    inr (io.errorString "XML syntax error") :: map inl (drop 3 document))
                   StrictErrorMode =
    Normal (Some (icon cursor), Some (io.errorString "XML syntax error")).
Proof.
  eexists. split; [vm_compute; reflexivity |].
  apply (ReadIconStream_stream_error StrictErrorMode (take 3 document)
           (map inl (drop 3 document)) _ (io.errorString "XML syntax error"));
    [vm_compute; reflexivity | discriminate].
Defined.

(** The end of [defs] with one captured group. *)
Lemma EndElement_defs_witness :
  let group := [{| ID := "a"; Tag := "g"; Attrs := [attr "id" "a"] |};
                {| ID := ""; Tag := "endg"; Attrs := [] |}] in
  let cursor := set_currentDef group
                  (set_inDefs true (set_styleStack [[]; []] (newCursor IgnoreErrorMode))) in
  exists cursor' : iconCursor,
    token cursor (xml.EndElement (elem "defs")) = Normal (cursor', None) /\
    defs (icon cursor') !! "a" = Some group /\
    currentDef cursor' = [] /\ inDefs cursor' = false.
Proof.
  intros group cursor. eexists. split.
  - apply (EndElement_defs cursor (elem "defs") [[]] []); reflexivity.
  - split; [| split; reflexivity]. simpl. apply lookup_insert_eq.
Defined.

(** C4 fails for [ReadIcon]: when the file cannot be opened the document
    returned is [nil]. *)
Lemma ReadIcon_unopened_file_nil_document :
  ReadIcon files "missing.svg" WarnErrorMode =
  Normal (None, Some (io.errorString "open missing.svg: no such file or directory")) /\
  ~ (exists (doc : SvgIcon) (err : option io.error),
       ReadIcon files "missing.svg" WarnErrorMode = Normal (Some doc, err)).
Proof.
  split; [reflexivity |].
  intros (doc & err & Hdoc). discriminate Hdoc.
Qed.

(** * Further properties *)

(** ** Strings *)

Lemma append_assoc (a b c : string) : (a +:+ b) +:+ c = a +:+ (b +:+ c).
Proof.
  induction a as [| x a IH]; [reflexivity |].
  change (String x ((a +:+ b) +:+ c) = String x (a +:+ (b +:+ c))). now f_equal.
Qed.

Lemma append_nil_r (a : string) : a +:+ "" = a.
Proof.
  induction a as [| x a IH]; [reflexivity |].
  change (String x (a +:+ "") = String x a). now f_equal.
Qed.

Lemma length_append (a b : string) :
  String.length (a +:+ b) = (String.length a + String.length b)%nat.
Proof.
  induction a as [| x a IH]; [reflexivity |].
  change (S (String.length (a +:+ b)) = S (String.length a + String.length b)).
  now f_equal.
Qed.

Lemma concat_cons (sep x : string) (l : list string) :
  l <> [] -> String.concat sep (x :: l) = x +:+ sep +:+ String.concat sep l.
Proof. destruct l; [contradiction | reflexivity]. Qed.

Lemma concat_app (sep : string) (l1 l2 : list string) :
  l1 <> [] -> l2 <> [] ->
  String.concat sep (l1 ++ l2) =
  String.concat sep l1 +:+ sep +:+ String.concat sep l2.
Proof.
  intros H1 H2. induction l1 as [| x l1 IH]; [contradiction |].
  destruct l1 as [| y l1].
  - simpl app. now rewrite concat_cons.
  - change ((x :: y :: l1) ++ l2) with (x :: (y :: l1) ++ l2).
    rewrite concat_cons by discriminate.
    rewrite IH by discriminate.
    rewrite (concat_cons sep x (y :: l1)) by discriminate.
    now rewrite !append_assoc.
Qed.

(** ** The text of a path *)

(** The text of two paths put end to end is the two texts with one space
    between them; an empty path adds nothing, not even the space. *)
Theorem ToSVGPath_app (p q : Path) :
  ToSVGPath (p ++ q) =
  match p, q with
  | [], _ => ToSVGPath q
  | _, [] => ToSVGPath p
  | _, _ => ToSVGPath p +:+ " " +:+ ToSVGPath q
  end.
Proof.
  unfold ToSVGPath. destruct p as [| a p]; [reflexivity |].
  destruct q as [| b q]; [now rewrite app_nil_r |].
  rewrite map_app. now apply concat_app.
Qed.

Lemma digits_nonempty (n : Z) : fmt.digits n <> "".
Proof.
  unfold fmt.digits, NilZero.string_of_uint.
  destruct (N.to_uint (Z.to_N n)); simpl; discriminate.
Qed.

Lemma string_of_uint_digits (u : Decimal.uint) :
  allChars isDigit (NilEmpty.string_of_uint u) = true.
Proof. induction u; simpl; auto. Qed.

Lemma digits_allDigits (n : Z) : allChars isDigit (fmt.digits n) = true.
Proof.
  unfold fmt.digits, NilZero.string_of_uint.
  destruct (N.to_uint (Z.to_N n)) eqn:Hu; try reflexivity;
    rewrite <- Hu; apply string_of_uint_digits.
Qed.

Lemma digits_one (n : Z) :
  0 <= n < 10 -> fmt.digits n = String (ascii_of_nat (48 + Z.to_nat n)) "".
Proof.
  intros Hn. rewrite <- (Z2Nat.id n) at 1 by lia.
  assert (Z.to_nat n < 10)%nat as Hk by lia.
  generalize dependent (Z.to_nat n). intros k Hk.
  do 10 (destruct k as [| k]; [reflexivity |]). lia.
Qed.

Lemma isDigit_ascii_of_nat (k : nat) :
  (k < 10)%nat -> isDigit (ascii_of_nat (48 + k)) = true.
Proof. intros Hk. do 10 (destruct k as [| k]; [reflexivity |]). lia. Qed.

Lemma pad_wide (width : nat) (s : string) :
  (width <= String.length s)%nat -> fmt.pad width s = s.
Proof.
  intros Hw. unfold fmt.pad.
  replace (width - String.length s)%nat with 0%nat by lia. reflexivity.
Qed.

Lemma allChars_append (f : ascii -> bool) (a b : string) :
  allChars f (a +:+ b) = allChars f a && allChars f b.
Proof.
  induction a as [| x a IH]; [reflexivity |].
  change (f x && allChars f (a +:+ b) = f x && allChars f a && allChars f b).
  rewrite IH. now destruct (f x).
Qed.

Lemma allChars_impl (f g : ascii -> bool) (s : string) :
  (forall a, f a = true -> g a = true) ->
  allChars f s = true -> allChars g s = true.
Proof.
  intros Hfg. induction s as [| x s IH]; [reflexivity |]. simpl.
  intros Hs. apply andb_prop in Hs as [Hx Hs].
  rewrite (Hfg x Hx). simpl. now apply IH.
Qed.

Lemma digit_not_space (a : ascii) : isDigit a = true -> negb (isSpace a) = true.
Proof.
  unfold isSpace. destruct (Ascii.eqb_spec a " ") as [-> | _]; [| reflexivity].
  discriminate.
Qed.

Lemma allChars_concat (f : ascii -> bool) (sep : string) (l : list string) :
  allChars f sep = true ->
  Forall (fun x => allChars f x = true) l ->
  allChars f (String.concat sep l) = true.
Proof.
  intros Hsep Hl. induction Hl as [| x l Hx Hl IH]; [reflexivity |].
  destruct l as [| y l]; [exact Hx |].
  rewrite concat_cons by discriminate.
  rewrite !allChars_append, Hx, Hsep. exact IH.
Qed.

(** The width 4 of the verb adds no padding: what is printed is the
    numeral of the thousandths the value rounds to. *)
Lemma verb_4_3f_thousandths (v : Q) :
  fmt.verb_4_3f v = thousandths (Qnum v) (fmt.round_half_even (Qabs v * 1000)).
Proof.
  unfold fmt.verb_4_3f, thousandths.
  set (m := fmt.round_half_even (Qabs v * 1000)).
  assert (0 <= m mod 1000 < 1000) as Hfrac by (apply Z.mod_pos_bound; lia).
  assert (0 <= m mod 1000 / 100 < 10) as H1
    by (split; [apply Z.div_pos; lia | apply Z.div_lt_upper_bound; lia]).
  assert (0 <= m mod 1000 / 10 mod 10 < 10) as H2 by (apply Z.mod_pos_bound; lia).
  assert (0 <= m mod 1000 mod 10 < 10) as H3 by (apply Z.mod_pos_bound; lia).
  apply pad_wide.
  rewrite (digits_one _ H1), (digits_one _ H2), (digits_one _ H3).
  rewrite !length_append. simpl.
  pose proof (digits_nonempty (m / 1000)) as Hint.
  destruct (fmt.digits (m / 1000)); [contradiction |]. simpl. lia.
Qed.

Lemma verb_4_3f_no_space (v : Q) :
  allChars (fun a => negb (isSpace a)) (fmt.verb_4_3f v) = true.
Proof.
  rewrite verb_4_3f_thousandths. unfold thousandths.
  rewrite !allChars_append.
  repeat (apply andb_true_intro; split);
    try (apply (allChars_impl isDigit _ _ digit_not_space), digits_allDigits);
    try reflexivity.
  now destruct (Qnum v <? 0).
Qed.

(** What [%4.3f] prints always has the form sign, integer part, point and
    three decimals, where the integer part is a non-empty row of digits
    and the decimals are three digits: the width 4 never pads. So no
    chunk of [ToSVGPath] holds a space, and the spaces of the text of a
    path are the ones between its chunks. *)
Theorem verb_4_3f_shape (v : Q) (op : Operation) :
  (exists (int : string) (d1 d2 d3 : ascii),
     int <> "" /\ allChars isDigit int = true /\
     isDigit d1 = true /\ isDigit d2 = true /\ isDigit d3 = true /\
     fmt.verb_4_3f v =
     (if Qnum v <? 0 then "-" else "") +:+ int +:+ "." +:+
     String d1 (String d2 (String d3 ""))) /\
  allChars (fun a => negb (isSpace a)) (fmt.verb_4_3f v) = true /\
  allChars (fun a => negb (isSpace a)) (chunk op) = true.
Proof.
  split; [| split].
  - rewrite verb_4_3f_thousandths. unfold thousandths.
    set (m := fmt.round_half_even (Qabs v * 1000)).
    assert (0 <= m mod 1000 < 1000) as Hfrac by (apply Z.mod_pos_bound; lia).
    assert (0 <= m mod 1000 / 100 < 10) as H1
      by (split; [apply Z.div_pos; lia | apply Z.div_lt_upper_bound; lia]).
    assert (0 <= m mod 1000 / 10 mod 10 < 10) as H2 by (apply Z.mod_pos_bound; lia).
    assert (0 <= m mod 1000 mod 10 < 10) as H3 by (apply Z.mod_pos_bound; lia).
    exists (fmt.digits (m / 1000)),
      (ascii_of_nat (48 + Z.to_nat (m mod 1000 / 100))),
      (ascii_of_nat (48 + Z.to_nat (m mod 1000 / 10 mod 10))),
      (ascii_of_nat (48 + Z.to_nat (m mod 1000 mod 10))).
    split; [apply digits_nonempty |].
    split; [apply digits_allDigits |].
    split; [apply isDigit_ascii_of_nat; lia |].
    split; [apply isDigit_ascii_of_nat; lia |].
    split; [apply isDigit_ascii_of_nat; lia |].
    now rewrite (digits_one _ H1), (digits_one _ H2), (digits_one _ H3).
  - apply verb_4_3f_no_space.
  - destruct op as [p | p | p0 p1 | p0 p1 p2 |]; unfold chunk, fmt.Sprintf;
      rewrite ?allChars_append; try reflexivity;
      repeat (apply andb_true_intro; split); try reflexivity;
      apply allChars_concat; try reflexivity;
      simpl map; repeat (constructor; [apply verb_4_3f_no_space |]); constructor.
Qed.

Lemma thousandths_small (c : fixed.Int26_6) :
  Z.abs c < 2 ^ 24 ->
  fmt.round_half_even (Qabs (coord c) * 1000) =
  let n := Z.abs c * 1000 in
  let k := n / 64 in
  let r := n mod 64 in
  if 2 * r <? 64 then k
  else if 64 <? 2 * r then k + 1
  else if Z.even k then k else k + 1.
Proof.
  intros Hc. rewrite (coord_small c Hc).
  unfold fmt.round_half_even, Qabs, Qmult, Qdiv, Qinv, inject_Z. simpl.
  now rewrite Z.mul_1_r.
Qed.

(** The thousandths a small coordinate is printed with. *)
Lemma coordinate_thousandths (c : fixed.Int26_6) :
  Z.abs c < 2 ^ 24 ->
  exists m : Z,
    fmt.verb_4_3f (coord c) = thousandths c m /\
    0 <= m /\
    Z.abs (64 * m - 1000 * Z.abs c) <= 32 /\
    (c mod 8 = 0 -> 64 * m = 1000 * Z.abs c).
Proof.
  intros Hc. exists (fmt.round_half_even (Qabs (coord c) * 1000)).
  split.
  { rewrite verb_4_3f_thousandths. rewrite (coord_small c Hc) at 1.
    unfold thousandths. simpl Qnum. now rewrite Z.mul_1_r. }
  rewrite (thousandths_small c Hc). cbv zeta.
  pose proof (Z.div_mod (Z.abs c * 1000) 64 ltac:(lia)) as Hdiv.
  pose proof (Z.mod_pos_bound (Z.abs c * 1000) 64 ltac:(lia)) as Hmod.
  assert (0 <= Z.abs c * 1000 / 64) as Hk by (apply Z.div_pos; lia).
  split; [| split].
  - destruct (Z.ltb_spec (2 * ((Z.abs c * 1000) mod 64)) 64); [lia |].
    destruct (Z.ltb_spec 64 (2 * ((Z.abs c * 1000) mod 64))); [lia |].
    destruct (Z.even (Z.abs c * 1000 / 64)); lia.
  - destruct (Z.ltb_spec (2 * ((Z.abs c * 1000) mod 64)) 64); [lia |].
    destruct (Z.ltb_spec 64 (2 * ((Z.abs c * 1000) mod 64))); [lia |].
    destruct (Z.even (Z.abs c * 1000 / 64)); lia.
  - intros H8.
    assert ((Z.abs c * 1000) mod 64 = 0) as Hzero.
    { assert (Z.abs c mod 8 = 0) as Habs.
      { destruct (Z.abs_spec c) as [[_ ->] | [_ ->]]; [exact H8 |].
        apply Z.mod_divide in H8; [| lia]. apply Z.mod_divide; [lia |].
        now apply Z.divide_opp_r. }
      apply Z.mod_divide in Habs; [| lia]. destruct Habs as [q Hq].
      apply Z.mod_divide; [lia |]. exists (q * 125). lia. }
    rewrite Hzero in *. simpl. lia.
Qed.

(** For a point with both coordinates below [2^24] in absolute value,
    [ToSVGPath] prints the letter and, for each coordinate [c], the sign
    of [c] and the decimal numeral of a number [m] of thousandths that is
    within half a thousandth of [|c|/64], and equal to it when [c] is a
    multiple of 8 (an eighth of a unit). *)
Theorem ToSVGPath_coordinate_accuracy (cx cy : fixed.Int26_6) :
  Z.abs cx < 2 ^ 24 ->
  Z.abs cy < 2 ^ 24 ->
  exists mx my : Z,
    ToSVGPath [OpMoveTo {| fixed.X := cx; fixed.Y := cy |}] =
    "M" +:+ thousandths cx mx +:+ "," +:+ thousandths cy my /\
    ToSVGPath [OpLineTo {| fixed.X := cx; fixed.Y := cy |}] =
    "L" +:+ thousandths cx mx +:+ "," +:+ thousandths cy my /\
    0 <= mx /\ 0 <= my /\
    Z.abs (64 * mx - 1000 * Z.abs cx) <= 32 /\
    Z.abs (64 * my - 1000 * Z.abs cy) <= 32 /\
    (cx mod 8 = 0 -> 64 * mx = 1000 * Z.abs cx) /\
    (cy mod 8 = 0 -> 64 * my = 1000 * Z.abs cy).
Proof.
  intros Hx Hy.
  destruct (coordinate_thousandths cx Hx) as (mx & Hpx & Hx0 & Hxa & Hx8).
  destruct (coordinate_thousandths cy Hy) as (my & Hpy & Hy0 & Hya & Hy8).
  exists mx, my.
  split; [| split].
  - unfold ToSVGPath, chunk, fmt.Sprintf. simpl. now rewrite Hpx, Hpy.
  - unfold ToSVGPath, chunk, fmt.Sprintf. simpl. now rewrite Hpx, Hpy.
  - repeat split; assumption.
Qed.

Lemma ToSVGPath_coordinate_accuracy_witness :
  ToSVGPath [OpMoveTo {| fixed.X := 24; fixed.Y := -100 |}] = "M0.375,-1.562" /\
  exists mx my : Z,
    ToSVGPath [OpMoveTo {| fixed.X := 24; fixed.Y := -100 |}] =
    "M" +:+ thousandths 24 mx +:+ "," +:+ thousandths (-100) my /\
    64 * mx = 1000 * Z.abs 24 /\
    Z.abs (64 * my - 1000 * Z.abs (-100)) <= 32.
Proof.
  split; [vm_compute; reflexivity |].
  destruct (ToSVGPath_coordinate_accuracy 24 (-100) eq_refl eq_refl)
    as (mx & my & HM & _ & _ & _ & _ & Hya & Hx8 & _).
  exists mx, my. split; [exact HM |]. split; [apply Hx8; reflexivity | exact Hya].
Defined.

(** ** Replaying into a path *)

(** Replayed on a [Path] as the drawer, every operation adds exactly one
    operation of its own kind, with the transformed points, and leaves the
    operations already there as they were: the [Stop(false)] of a [MoveTo]
    adds nothing. *)
Theorem drawTo_Path_appends_one `{Transforms} (op : Operation) (path : Path)
    (M : Matrix2D) :
  appends path
    (match op with
     | OpMoveTo p => OpMoveTo (trMove M p)
     | OpLineTo p => OpLineTo (trLine M p)
     | OpQuadTo p0 p1 => let '(b, c) := trQuad M p0 p1 in OpQuadTo b c
     | OpCubicTo p0 p1 p2 => let '(b, c, d) := trCubic M p0 p1 p2 in OpCubicTo b c d
     | OpClose => OpClose
     end)
    (drawTo op path M).
Proof.
  destruct op as [p | p | p0 p1 | p0 p1 p2 |]; simpl.
  - unfold Path_Start. destruct (trMove M p). apply appends_snoc.
  - unfold Path_Line. destruct (trLine M p). apply appends_snoc.
  - destruct (trQuad M p0 p1) as [b c]. apply appends_snoc.
  - destruct (trCubic M p0 p1 p2) as [[b c] d]. apply appends_snoc.
  - apply appends_snoc.
Qed.

(** ** More on the parser loop *)

Section TokenProperties.

Context `{Declarations} `{!CursorMethods}.

Lemma appendToLast_nil (data : string) : appendToLast [] data = Panic.
Proof. reflexivity. Qed.

Lemma appendToLast_snoc (l : list string) (s data : string) :
  appendToLast (l ++ [s]) data = Normal (l ++ [s +:+ data]).
Proof.
  unfold appendToLast. rewrite length_app, Nat.add_comm. simpl.
  rewrite list_lookup_middle by reflexivity. f_equal.
  replace (length l) with (length l + 0)%nat by lia.
  now rewrite insert_app_r.
Qed.

(** The end of an element leaves the document as it is, unless the element
    is [defs]: the titles, descriptions, gradients and transform are never
    touched, and a definition group can only change under the [ID] of the
    first captured entry, at the end of [defs]. The error mode is kept. *)
Theorem EndElement_frame (cursor cursor' : iconCursor) (name : xml.Name)
    (err : option io.error) :
  token cursor (xml.EndElement name) = Normal (cursor', err) ->
  Titles (icon cursor') = Titles (icon cursor) /\
  Descriptions (icon cursor') = Descriptions (icon cursor) /\
  grads (icon cursor') = grads (icon cursor) /\
  Transform (icon cursor') = Transform (icon cursor) /\
  errorMode cursor' = errorMode cursor /\
  (xml.Local name <> "defs" -> icon cursor' = icon cursor) /\
  (forall id : string,
     defs (icon cursor') !! id <> defs (icon cursor) !! id ->
     xml.Local name = "defs" /\
     exists (first : definition) (others : list definition),
       currentDef cursor = first :: others /\ id = ID first).
Proof.
  intros Htok.
  destruct (snoc_case (styleStack cursor)) as [Hs | [s [top Hs]]].
  { unfold token in Htok. rewrite Hs in Htok. discriminate. }
  rewrite (token_EndElement _ _ _ _ Hs) in Htok. injection Htok as <- <-.
  unfold endElement.
  destruct (String.eqb_spec (xml.Local name) "g") as [Hg | _].
  { rewrite Hg. destruct (inDefs (set_styleStack s cursor)); simpl;
      repeat split; intros; congruence. }
  destruct (String.eqb_spec (xml.Local name) "title") as [-> | _].
  { simpl. repeat split; intros; congruence. }
  destruct (String.eqb_spec (xml.Local name) "desc") as [-> | _].
  { simpl. repeat split; intros; congruence. }
  destruct (String.eqb_spec (xml.Local name) "defs") as [Hdefs | Hdefs].
  { simpl. destruct (currentDef cursor) as [| first others] eqn:Hdef; simpl.
    - repeat split; intros; congruence.
    - do 5 (split; [reflexivity |]). split; [congruence |].
      intros id Hid. split; [exact Hdefs |].
      exists first, others. split; [reflexivity |].
      destruct (decide (ID first = id)) as [<- | Hne]; [reflexivity |].
      rewrite lookup_insert_ne in Hid by exact Hne. congruence. }
  destruct (String.eqb (xml.Local name) "radialGradient"
            || String.eqb (xml.Local name) "linearGradient");
    simpl; repeat split; intros; congruence.
Qed.

(** The end of an element never sets a flag of the cursor: one that is
    set afterwards was set before. It clears [inTitleText] at [title],
    [inDescText] at [desc], [inDefs] at [defs] and [inGrad] at the two
    gradient elements. *)
Theorem EndElement_flags (cursor cursor' : iconCursor) (name : xml.Name)
    (err : option io.error) :
  token cursor (xml.EndElement name) = Normal (cursor', err) ->
  (inDefs cursor' = true -> inDefs cursor = true /\ xml.Local name <> "defs") /\
  (inTitleText cursor' = true ->
   inTitleText cursor = true /\ xml.Local name <> "title") /\
  (inDescText cursor' = true -> inDescText cursor = true /\ xml.Local name <> "desc") /\
  (inGrad cursor' = true ->
   inGrad cursor = true /\ xml.Local name <> "radialGradient" /\
   xml.Local name <> "linearGradient").
Proof.
  intros Htok.
  destruct (snoc_case (styleStack cursor)) as [Hs | [s [top Hs]]].
  { unfold token in Htok. rewrite Hs in Htok. discriminate. }
  rewrite (token_EndElement _ _ _ _ Hs) in Htok. injection Htok as <- <-.
  unfold endElement.
  destruct (String.eqb_spec (xml.Local name) "g") as [Hg | _].
  { rewrite Hg. destruct (inDefs (set_styleStack s cursor)) eqn:Hin; simpl in *;
      repeat split; intros; congruence. }
  destruct (String.eqb_spec (xml.Local name) "title") as [Ht | Ht].
  { rewrite Ht. simpl. repeat split; intros; congruence. }
  destruct (String.eqb_spec (xml.Local name) "desc") as [Hd | Hd].
  { rewrite Hd. simpl. repeat split; intros; congruence. }
  destruct (String.eqb_spec (xml.Local name) "defs") as [Hdefs | Hdefs].
  { rewrite Hdefs. simpl. destruct (currentDef cursor); simpl;
      repeat split; intros; congruence. }
  destruct (String.eqb_spec (xml.Local name) "radialGradient") as [Hr | Hr].
  { rewrite Hr. simpl. repeat split; intros; congruence. }
  destruct (String.eqb_spec (xml.Local name) "linearGradient") as [Hl | Hl].
  { rewrite Hl. simpl. repeat split; intros; congruence. }
  simpl. repeat split; intros; congruence.
Qed.

End TokenProperties.

Section CharDataProperties.

Context `{Declarations} `{!CursorMethods}.

Ltac chardata_cases c :=
  unfold charData;
  destruct (inTitleText c) eqn:Etitle; destruct (inDescText c) eqn:Edesc;
  destruct (snoc_case (Titles (icon c))) as [Et | (ts & t & Et)];
  destruct (snoc_case (Descriptions (icon c))) as [Ed | (ds & d & Ed)];
  rewrite ?Et, ?Ed, ?appendToLast_snoc, ?appendToLast_nil; simpl;
  rewrite ?Etitle, ?Edesc, ?Et, ?Ed, ?appendToLast_snoc, ?appendToLast_nil; simpl.

(** Character data panics exactly when the cursor is capturing the text of
    a title, or of a description, and the document has none. *)
Theorem charData_panics_iff (cursor : iconCursor) (data : string) :
  charData cursor data = Panic <->
  (inTitleText cursor = true /\ Titles (icon cursor) = []) \/
  (inDescText cursor = true /\ Descriptions (icon cursor) = []).
Proof.
  chardata_cases cursor; split; try discriminate; auto;
    intros [[Hf Hl] | [Hf Hl]]; try discriminate;
    try (now destruct (app_cons_not_nil _ _ _ (eq_sym Hl))).
Qed.

(** Character data is added at the end of the last title when the cursor
    is capturing a title, and at the end of the last description when it
    is capturing a description; the titles and descriptions before the
    last, the rest of the document and the cursor are left as they were. *)
Theorem charData_last_entry (cursor cursor' : iconCursor) (data : string) :
  charData cursor data = Normal cursor' ->
  (if inTitleText cursor
   then exists (ts : list string) (t : string),
          Titles (icon cursor) = ts ++ [t] /\
          Titles (icon cursor') = ts ++ [t +:+ data]
   else Titles (icon cursor') = Titles (icon cursor)) /\
  (if inDescText cursor
   then exists (ds : list string) (d : string),
          Descriptions (icon cursor) = ds ++ [d] /\
          Descriptions (icon cursor') = ds ++ [d +:+ data]
   else Descriptions (icon cursor') = Descriptions (icon cursor)) /\
  defs (icon cursor') = defs (icon cursor) /\
  grads (icon cursor') = grads (icon cursor) /\
  Transform (icon cursor') = Transform (icon cursor) /\
  set_icon (icon cursor) cursor' = cursor.
Proof.
  assert (set_icon (icon cursor) cursor = cursor) as Hsame by now destruct cursor.
  chardata_cases cursor; intros Hc; try discriminate;
    injection Hc as <-; simpl;
    repeat split; eauto.
Qed.

(** Character data that comes in two pieces has the effect of the two
    pieces joined. *)
Theorem charData_joins (cursor : iconCursor) (data1 data2 : string) :
  (charData cursor data1 ≫= fun cursor1 => charData cursor1 data2) =
  charData cursor (data1 +:+ data2).
Proof.
  chardata_cases cursor; try reflexivity;
    unfold charData; simpl;
    rewrite ?Etitle, ?Edesc, ?Et, ?Ed, ?appendToLast_snoc, ?appendToLast_nil; simpl;
    rewrite ?Etitle, ?Edesc, ?Et, ?Ed, ?appendToLast_snoc, ?appendToLast_nil; simpl;
    rewrite ?append_assoc; reflexivity.
Qed.

Lemma loop_prefix (pre s1 s2 : io.Reader) :
  (forall c : iconCursor, loop c s1 = loop c s2) ->
  forall c : iconCursor, loop c (pre ++ s1) = loop c (pre ++ s2).
Proof.
  intros Hs. induction pre as [| [t | e] pre IH]; intros c; simpl.
  - apply Hs.
  - destruct (token c t) as [[c1 [e |]] |]; simpl; auto.
  - reflexivity.
Qed.

(** Wherever it stands in the stream, character data split over two
    tokens is read as the one token that holds both pieces. *)
Theorem ReadIconStream_CharData_split (pre rest : io.Reader) (data1 data2 : string)
    (errMode : ErrorMode) :
  ReadIconStream (pre ++ inl (xml.CharData data1) :: inl (xml.CharData data2) :: rest)
                 errMode =
  ReadIconStream (pre ++ inl (xml.CharData (data1 +:+ data2)) :: rest) errMode.
Proof.
  unfold ReadIconStream. f_equal. apply loop_prefix. intros c.
  cbn [loop token]. rewrite <- charData_joins.
  destruct (charData c data1) as [c1 |]; simpl; [| reflexivity].
  destruct (charData c1 data2) as [c2 |]; reflexivity.
Qed.

(** Comments, processing instructions and directives have no effect:
    taking them out of the stream changes nothing of what is returned. *)
Theorem ReadIconStream_skips_ignorable (stream : io.Reader) (errMode : ErrorMode) :
  ReadIconStream (List.filter (fun r => negb (ignorable r)) stream) errMode =
  ReadIconStream stream errMode.
Proof.
  unfold ReadIconStream. f_equal. generalize (newCursor errMode).
  induction stream as [| [t | e] stream IH]; intros c; [reflexivity | |].
  - destruct t as [name attrs | name | data | data | target inst | data];
      simpl; auto.
    + destruct (pushStyle c attrs) as [[c1 [e |]] |]; simpl; auto.
      destruct (readStartElement c1 name attrs) as [[c2 [e |]] |]; simpl; auto.
    + destruct (pop (styleStack c)); simpl; auto.
    + destruct (charData c data); simpl; auto.
  - reflexivity.
Qed.

(** The loop is left at the first error of the stream: what follows it has
    no effect, and an [io.EOF] in the stream is the end of the stream. *)
Theorem ReadIconStream_stops_at_error (pre rest : io.Reader) (err : io.error)
    (errMode : ErrorMode) :
  ReadIconStream (pre ++ inr err :: rest) errMode =
  ReadIconStream (pre ++ [inr err]) errMode /\
  ReadIconStream (pre ++ inr io.EOF :: rest) errMode = ReadIconStream pre errMode.
Proof.
  unfold ReadIconStream. split; f_equal.
  - apply loop_prefix. reflexivity.
  - rewrite <- (app_nil_r pre) at 2. apply loop_prefix. reflexivity.
Qed.

End CharDataProperties.

(** ** More on the raster driver *)

(** The handles [SetupDrawers] returns are views of the driver's one
    dasher: the filler points to the [Filler] inside it and the stroker to
    the dasher itself, so a filler and a stroker asked for together share
    their geometry. *)
Theorem SetupDrawers_share_dasher (rd : Driver) (willFill willStroke : bool)
    (f : option filler) (s : option stroker) :
  SetupDrawers rd willFill willStroke = Normal (f, s) ->
  (forall fh : filler, f = Some fh ->
     exists a : rasterx.DasherAddr,
       dasher rd = Some a /\ Filler fh = Some (rasterx.FillerOf a)) /\
  (forall sh : stroker, s = Some sh -> Dasher sh = dasher rd).
Proof.
  unfold SetupDrawers.
  destruct willFill, willStroke, (dasher rd) as [a |]; simpl;
    intros Hr; try discriminate; injection Hr as <- <-;
    split; intros h Hh; try discriminate; injection Hh as <-; simpl; eauto.
Qed.

Lemma SetupDrawers_share_dasher_witness :
  SetupDrawers (NewDriver 1%positive) true true =
  Normal (Some {| Filler := Some (rasterx.FillerOf 1%positive) |}, Some {| Dasher := Some 1%positive |}) /\
  Dasher {| Dasher := Some 1%positive |} = dasher (NewDriver 1%positive).
Proof.
  split; [reflexivity |].
  apply (SetupDrawers_share_dasher (NewDriver 1%positive) true true
           (Some {| Filler := Some (rasterx.FillerOf 1%positive) |}) (Some {| Dasher := Some 1%positive |}));
    reflexivity.
Defined.

Section MoreRasterProperties.

Context {Color : Type} `{rasterx.Paints Color}.



(** A gradient in [ObjectBoundingBox] mode is resolved without regard to
    the bounds it comes with: they are overwritten from the path extent. *)
Theorem setColorFromPattern_ignores_bounds {S : Type} `{!rasterx.Scanner Color S}
    (g : Gradient Color) (b : Bounds.t) (opacity : Q) (scanner : S) :
  Units g = ObjectBoundingBox ->
  setColorFromPattern (GradientPattern (set_Bounds b g)) opacity scanner =
  setColorFromPattern (GradientPattern g) opacity scanner.
Proof.
  intros Hu. unfold setColorFromPattern. simpl. rewrite Hu. reflexivity.
Qed.

End MoreRasterProperties.

Lemma extent_is_exact_witness :
  let fRect := {| fixed.Min := {| fixed.X := 640; fixed.Y := 640 |};
                  fixed.Max := {| fixed.X := 1280; fixed.Y := 1920 |} |} in
  float64_exact (Bounds.W (extentBounds fRect)) /\
  float64_exact (Bounds.H (extentBounds fRect)).
Proof.
  intros fRect.
  assert (fixed.int32_range 640 /\ fixed.int32_range 1280 /\ fixed.int32_range 1920)
    as (H640 & H1280 & H1920) by (unfold fixed.int32_range; lia).
  destruct (extent_is_exact fRect H640 H640 H1280 H1920) as (_ & _ & HW & HH).
  split; assumption.
Defined.

Lemma setColorFromPattern_ignores_bounds_witness :
  let g := {| Direction := Linear 0 0 1 1; Stops := [];
              Bounds := {| Bounds.X := 0; Bounds.Y := 0; Bounds.W := 1; Bounds.H := 1 |};
              Matrix := Identity; Spread := PadSpread; Units := ObjectBoundingBox |} in
  let b := {| Bounds.X := 5; Bounds.Y := 5; Bounds.W := 7; Bounds.H := 7 |} in
  let sc := {| colour := None;
               extent := {| fixed.Min := {| fixed.X := 640; fixed.Y := 640 |};
                            fixed.Max := {| fixed.X := 1280; fixed.Y := 1920 |} |} |} in
  setColorFromPattern (GradientPattern (set_Bounds b g)) 1 sc =
  setColorFromPattern (GradientPattern g) 1 sc.
Proof.
  intros g b sc.
  apply (setColorFromPattern_ignores_bounds g b 1%Q sc). reflexivity.
Defined.

(** ** The further properties on the sample cursor *)

Lemma EndElement_frame_witness :
  exists cursor' : iconCursor,
    token sample_cursor (xml.EndElement (elem "g")) = Normal (cursor', None) /\
    icon cursor' = icon sample_cursor.
Proof.
  eexists. split; [reflexivity |].
  pose proof (EndElement_frame sample_cursor _ (elem "g") None eq_refl)
    as (_ & _ & _ & _ & _ & Hicon & _).
  apply Hicon. discriminate.
Defined.

Lemma EndElement_flags_witness :
  exists cursor' : iconCursor,
    token sample_cursor (xml.EndElement (elem "g")) = Normal (cursor', None) /\
    inDefs cursor' = true /\
    inDefs sample_cursor = true /\ xml.Local (elem "g") <> "defs".
Proof.
  eexists. split; [reflexivity |]. split; [reflexivity |].
  pose proof (EndElement_flags sample_cursor _ (elem "g") None eq_refl)
    as (Hdefs & _).
  apply Hdefs. reflexivity.
Defined.

Lemma EndElement_defs_lookup_witness :
  exists cursor' : iconCursor,
    token sample_cursor (xml.EndElement (elem "defs")) = Normal (cursor', None) /\
    defs (icon cursor') !! "a" = Some sample_group.
Proof.
  eexists. split; [reflexivity |].
  pose proof (EndElement_defs_lookup sample_cursor _ (elem "defs")
                {| ID := "a"; Tag := "g"; Attrs := [attr "id" "a"] |} []
                eq_refl eq_refl eq_refl) as (Hlookup & _).
  exact Hlookup.
Defined.

Lemma charData_last_entry_witness :
  exists cursor' : iconCursor,
    charData sample_cursor "k" = Normal cursor' /\
    (exists (ts : list string) (t : string),
       Titles (icon sample_cursor) = ts ++ [t] /\
       Titles (icon cursor') = ts ++ [t +:+ "k"]) /\
    set_icon (icon sample_cursor) cursor' = sample_cursor.
Proof.
  eexists. split; [reflexivity |].
  pose proof (charData_last_entry sample_cursor _ "k" eq_refl)
    as (Htitles & _ & _ & _ & _ & Hcursor).
  split; [exact Htitles | exact Hcursor].
Defined.

Section PopProperties.

Context `{Declarations} `{!CursorMethods}.

(** An end-element panics exactly when the style stack is empty.
    Otherwise it returns no error and takes the top frame, and only the
    top frame, off the stack: the frames below stay as they were. *)
Theorem EndElement_pops_top (cursor : iconCursor) (name : xml.Name) :
  match token cursor (xml.EndElement name) with
  | Panic => styleStack cursor = []
  | Normal (cursor', err) =>
      err = None /\
      exists top : PathStyle, styleStack cursor = styleStack cursor' ++ [top]
  end.
Proof.
  destruct (snoc_case (styleStack cursor)) as [Hs | [s [top Hs]]].
  - unfold token. rewrite Hs. reflexivity.
  - rewrite (token_EndElement _ _ _ _ Hs). split; [reflexivity |].
    exists top. now rewrite endElement_styleStack.
Qed.

End PopProperties.
